(** * SaloonAppBE: the booking service over Firestore, and the image upload

    A shallow embedding of the three source files of the repository:
    - the transactional booking service ([createBooking], [getUserBookings],
      [getNearbySaloons], [getSaloonById], [transformDoc]),
    - [src/services/api.js] ([getUserBookings], [getBarberBookings],
      [updateBookingStatus], [getAllSaloons], [getSaloonById], [addReview],
      [getSaloonReviews]),
    - the Cloudinary upload helper ([uploadImageToCloudinary]).

    Asynchronous functions are computations in a state-and-exception monad:
    the state is the part of the outside world the function talks to (the
    Firestore collections and the list of requests sent to them), a rejected
    promise or a thrown exception is the [inr] branch.  One call runs at a
    time: the interleaving of several clients is not modelled.

    JavaScript numbers that hold instants (epoch milliseconds) and durations
    (minutes) are integers here; the numbers of the proximity search, which
    are coordinates and distances, stay abstract. *)

From Stdlib Require Import ZArith List String Bool Lia Sorted.
From Stdlib Require Import Permutation Ascii.
Import ListNotations.
Local Open Scope string_scope.
Local Open Scope list_scope.
Local Open Scope Z_scope.

(** ** JavaScript exceptions *)

Inductive error : Type :=
| JsError (message : string)        (* new Error(message) *)
| TypeError (message : string)      (* raised by the engine *)
| NetworkError (message : string)   (* a rejected fetch *)
| SyntaxError (message : string)    (* a body that is not JSON *)
| RangeError (message : string)     (* a time value that is not one *)
| FirestoreError (code : string).   (* a rejection of the SDK *)

(** ** Promises as a state-and-exception monad *)

Section Async.
Context {St : Type}.

Definition Async (A : Type) : Type := St -> (A + error) * St.

Definition ret {A} (a : A) : Async A := fun s => (inl a, s).

Definition bind {A B} (m : Async A) (k : A -> Async B) : Async B :=
  fun s =>
    match m s with
    | (inl a, s') => k a s'
    | (inr e, s') => (inr e, s')
    end.

Definition throw {A} (e : error) : Async A := fun s => (inr e, s).

(* try { body } catch (error) { handler(error) } *)
Definition try_catch {A} (body : Async A) (handler : error -> Async A) : Async A :=
  fun s =>
    match body s with
    | (inl a, s') => (inl a, s')
    | (inr e, s') => handler e s'
    end.

Definition gets {A} (f : St -> A) : Async A := fun s => (inl (f s), s).

Definition modify (f : St -> St) : Async unit := fun s => (inl tt, f s).

(* for (const x of xs) { body(x) }: the first throw leaves the loop *)
Fixpoint for_of {A} (xs : list A) (body : A -> Async unit) : Async unit :=
  match xs with
  | [] => ret tt
  | x :: rest => bind (body x) (fun _ => for_of rest body)
  end.

(* Promise.all(promises): the requests in the order they were started; the
   first rejection rejects the whole *)
Fixpoint all {A} (promises : list (Async A)) : Async (list A) :=
  match promises with
  | [] => ret []
  | p :: rest =>
      bind p (fun a => bind (all rest) (fun others => ret (a :: others)))
  end.
End Async.

Arguments Async : clear implicits.

Declare Scope async_scope.
Delimit Scope async_scope with async.
Notation "x <- m ;; k" := (bind m (fun x => k))
  (at level 61, m at next level, right associativity) : async_scope.
Notation "m ;; k" := (bind m (fun _ => k))
  (at level 61, right associativity) : async_scope.
Local Open Scope async_scope.

(** ** JavaScript dates and Firestore timestamps

    A Date holds a time value, a whole number of milliseconds at most
    8.64e15 away from the epoch, or it is an Invalid Date, whose time value
    is NaN: [None].  Every comparison with an Invalid Date is false. *)
Definition Date : Type := option Z.

Definition MAX_TIME : Z := 8640000000000000.

(* new Date(milliseconds) *)
Definition new_Date (milliseconds : Z) : Date :=
  if (- MAX_TIME <=? milliseconds) && (milliseconds <=? MAX_TIME)
  then Some milliseconds else None.

(* new Date(date.getTime() + milliseconds) *)
Definition Date_plus (date : Date) (milliseconds : Z) : Date :=
  match date with
  | Some time => new_Date (time + milliseconds)
  | None => None
  end.

(* a < b and a > b on two Dates *)
Definition Date_lt (a b : Date) : bool :=
  match a, b with
  | Some x, Some y => x <? y
  | _, _ => false
  end.

Definition Date_gt (a b : Date) : bool :=
  match a, b with
  | Some x, Some y => x >? y
  | _, _ => false
  end.

(** A Timestamp is kept as its epoch milliseconds. *)
(* timestamp.toDate(): new Date(this.toMillis()) *)
Definition toDate (timestamp : Z) : Date := new_Date timestamp.

(* Timestamp.fromDate(date): the SDK rejects seconds outside the years 1 to
   9999; the Timestamp of an Invalid Date holds NaN, and the write that
   carries it throws when it is serialised *)
Definition Timestamp_fromDate {St} (date : Date) : Async St Z :=
  match date with
  | None => throw (RangeError "Invalid time value")
  | Some milliseconds =>
      let seconds := milliseconds / 1000 in
      if seconds <? -62135596800 then throw (FirestoreError "invalid-argument")
      else if seconds >=? 253402300800 then throw (FirestoreError "invalid-argument")
      else ret milliseconds
  end.

(** ** The Firestore collections *)

(** A document snapshot: the document's name and its fields. *)
Record Doc (D : Type) : Type := mkDoc { doc_id : string; doc_data : D }.
Arguments mkDoc {D}.
Arguments doc_id {D}.
Arguments doc_data {D}.

(** A collection is the sequence of its documents, in the order in which the
    store enumerates them, which is the order of their names; a query
    without [orderBy] keeps that order. *)
Definition Collection (D : Type) : Type := list (Doc D).

(* getDocs(query(ref, where(field, '==', value))) *)
Definition where_eq {D} (field : D -> string) (value : string)
  (c : Collection D) : list (Doc D) :=
  filter (fun d => String.eqb (field (doc_data d)) value) c.

(* set(ref, data): writes the document named [doc_id d], replacing the one of
   that name when there is one, and otherwise placing it where its name
   belongs in the enumeration *)
Fixpoint set_doc {D} (d : Doc D) (c : Collection D) : Collection D :=
  match c with
  | [] => [d]
  | x :: rest =>
      match String.compare (doc_id d) (doc_id x) with
      | Eq => d :: rest
      | Lt => d :: x :: rest
      | Gt => x :: set_doc d rest
      end
  end.

(* updateDoc(ref, fields): None when no document has that name (the SDK
   rejects with not-found) *)
Fixpoint update_doc {D} (id : string) (f : D -> D) (c : Collection D)
  : option (Collection D) :=
  match c with
  | [] => None
  | x :: rest =>
      if String.eqb (doc_id x) id then Some (mkDoc id (f (doc_data x)) :: rest)
      else option_map (cons x) (update_doc id f rest)
  end.

Definition ids {D} (c : Collection D) : list string := map doc_id c.

(* doc(db, name, id): the reference to the document; the SDK refuses an empty
   id, which is no path to a document.  An id is otherwise taken to be a
   document name, not a path with '/' in it. *)
Definition doc_ref {St} (id : string) : Async St string :=
  if String.eqb id "" then throw (FirestoreError "invalid-argument") else ret id.

(** ** Booking documents

    The fields are those listed in the comment of [createBooking] in api.js,
    plus the [createdAt] stamp the transactional [createBooking] adds.  The
    record is parametrised by the representation [T] of its two instants:
    in the store they are Firestore Timestamps, kept as epoch milliseconds
    ([new Date(bookingTime)] is taken to parse, a stored [bookingTime] to be
    a Timestamp); after [transformDoc] they are ISO strings.  [duration] is a
    whole number of minutes.  [id_field] is the field named [id] of the data,
    when there is one: it is not the document's name. *)
Record BookingOf (T : Type) : Type := mkBooking {
  userId : string;
  saloonId : string;
  barberId : string;
  serviceId : string;
  bookingTime : T;
  status : option string;
  price : Z;
  duration : Z;
  paymentDetails : string;
  createdAt : option T;
  id_field : option string
}.
Arguments mkBooking {T}.
Arguments userId {T}.
Arguments saloonId {T}.
Arguments barberId {T}.
Arguments serviceId {T}.
Arguments bookingTime {T}.
Arguments status {T}.
Arguments price {T}.
Arguments duration {T}.
Arguments paymentDetails {T}.
Arguments createdAt {T}.
Arguments id_field {T}.

Definition Booking : Type := BookingOf Z.

(** [timestamp.toDate().toISOString()]: the ISO-8601 text of an instant, kept
    as the instant it spells. *)
Inductive IsoString : Type := ISO (ms : Z).

Definition iso_ms (s : IsoString) : Z := match s with ISO ms => ms end.

(** The requests sent to the store, and the lines printed by console.error. *)
Inductive event : Type :=
| GetDocs (collectionName field value : string)
| GetDocsRange (collectionName field lower upper : string)
| TxSet (collectionName id : string)
| UpdateDoc (collectionName id : string)
| Console_error (message : string) (e : error).

(** The world of the booking functions: the 'bookings' collection, the writes
    buffered by the running transaction, and the requests sent and lines
    printed so far. *)
Record World : Type := mkWorld {
  bookings : Collection Booking;
  tx_buffer : list (Doc Booking);
  trace : list event
}.

Definition log (e : event) : Async World unit :=
  modify (fun w => mkWorld (bookings w) (tx_buffer w) (trace w ++ [e])).

Inductive bookingField : Type := F_barberId | F_userId.

Definition field_name (f : bookingField) : string :=
  match f with F_barberId => "barberId" | F_userId => "userId" end.

Definition field_get (f : bookingField) : Booking -> string :=
  match f with F_barberId => barberId | F_userId => userId end.

(* getDocs(query(collection(db, 'bookings'), where(field, '==', value))) *)
Definition getDocs (f : bookingField) (value : string)
  : Async World (list (Doc Booking)) :=
  log (GetDocs "bookings" (field_name f) value) ;;
  gets (fun w => where_eq (field_get f) value (bookings w)).

(* transaction.set(ref, data): buffered until the transaction commits *)
Definition transaction_set (ref : string) (data : Booking) : Async World unit :=
  modify (fun w =>
    mkWorld (bookings w) (tx_buffer w ++ [mkDoc ref data]) (trace w)).

Definition commit (w : World) : World :=
  mkWorld (fold_left (fun c d => set_doc d c) (tx_buffer w) (bookings w))
          []
          (trace w ++ map (fun d => TxSet "bookings" (doc_id d)) (tx_buffer w)).

Definition rollback (w : World) : World :=
  mkWorld (bookings w) [] (trace w).

(* runTransaction(db, updateFunction): the buffered writes are applied when
   the function returns, and dropped when it throws *)
Definition runTransaction {A} (updateFunction : Async World A) : Async World A :=
  fun w =>
    match updateFunction (rollback w) with
    | (inl a, w') => (inl a, commit w')
    | (inr e, w') => (inr e, rollback w')
    end.

(* updateDoc(doc(db, 'bookings', id), fields) *)
Definition updateDoc (id : string) (fields : Booking -> Booking) : Async World unit :=
  ref <- doc_ref id ;;
  log (UpdateDoc "bookings" ref) ;;
  fun w =>
    match update_doc ref fields (bookings w) with
    | Some c => (inl tt, mkWorld c (tx_buffer w) (trace w))
    | None => (inr (FirestoreError "not-found"), w)
    end.

(** A world at rest, as a caller finds it: no transaction running. *)
Definition world_of (c : Collection Booking) : World := mkWorld c [] [].

(** ** transformDoc

    [{ id: doc.id, ...data }] with every Timestamp field of [data] replaced
    by its ISO string: the [id] of the object is the document's name, unless
    the data has a field named [id], which the spread puts in its place.
    Which fields are Timestamps, and which one is [id], depends on the kind
    of document, hence the class. *)
Class Transformable (D V : Type) : Type := {
  timestamps_to_iso : D -> V;
  id_field_of : D -> option string
}.

#[export] Instance Transformable_Booking : Transformable Booking (BookingOf IsoString) := {|
  timestamps_to_iso := fun data =>
    mkBooking (userId data) (saloonId data) (barberId data) (serviceId data)
      (ISO (bookingTime data))
      (status data) (price data) (duration data) (paymentDetails data)
      (option_map ISO (createdAt data)) (id_field data);
  id_field_of := id_field
|}.

Definition transformDoc {D V} `{Transformable D V} (doc : Doc D) : Doc V :=
  let data := timestamps_to_iso (doc_data doc) in
  mkDoc (match id_field_of (doc_data doc) with
         | Some id => id
         | None => doc_id doc
         end)
        data.

(** ** src/services/api.js *)

Module Api.

Definition getUserBookings (userId : string) : Async World (list (Doc Booking)) :=
  getDocs F_userId userId.

Definition getBarberBookings (barberId : string) : Async World (list (Doc Booking)) :=
  getDocs F_barberId barberId.

(* { status: newStatus } *)
Definition with_status (newStatus : string) (b : Booking) : Booking :=
  mkBooking (userId b) (saloonId b) (barberId b) (serviceId b) (bookingTime b)
    (Some newStatus) (price b) (duration b) (paymentDetails b) (createdAt b)
    (id_field b).

Definition updateBookingStatus (bookingId newStatus : string) : Async World unit :=
  updateDoc bookingId (with_status newStatus).

End Api.

(** ** The transactional booking service *)

Module Service.

Definition slot_unavailable : error :=
  JsError "This time slot is no longer available. Please select another time.".

(* the test of the loop body:
   bookingStart < existingEnd && bookingEnd > existingStart *)
Definition overlaps (bookingStart bookingEnd : Date) (existingBooking : Booking) : bool :=
  let existingStart := toDate (bookingTime existingBooking) in
  let existingEnd := Date_plus existingStart (duration existingBooking * 60000) in
  Date_lt bookingStart existingEnd && Date_gt bookingEnd existingStart.

(** [now] is the value of [Timestamp.now()], [newBookingRef] the name that
    [doc(collection(db, 'bookings'))] draws. *)
Definition createBooking (now : Z) (newBookingRef : string)
  (bookingData : Booking) : Async World string :=
  try_catch
    (newBookingId <- runTransaction (
        let bookingStart := new_Date (bookingTime bookingData) in
        let bookingEnd := Date_plus bookingStart (duration bookingData * 60000) in
        querySnapshot <- getDocs F_barberId (barberId bookingData) ;;
        for_of querySnapshot (fun doc =>
          if overlaps bookingStart bookingEnd (doc_data doc)
          then throw slot_unavailable
          else ret tt) ;;
        bookingTimestamp <- Timestamp_fromDate bookingStart ;;
        let finalBookingData :=
          mkBooking (userId bookingData) (saloonId bookingData)
            (barberId bookingData) (serviceId bookingData)
            bookingTimestamp
            (status bookingData) (price bookingData) (duration bookingData)
            (paymentDetails bookingData)
            (Some now) (id_field bookingData) in
        transaction_set newBookingRef finalBookingData ;;
        ret newBookingRef) ;;
     ret newBookingId)
    (fun error =>
       log (Console_error "Booking Transaction Failed:" error) ;;
       throw error).

Definition getUserBookings (userId : string)
  : Async World (list (Doc (BookingOf IsoString))) :=
  querySnapshot <- getDocs F_userId userId ;;
  ret (map transformDoc querySnapshot).

End Service.

(** ** Saloons and the proximity search

    Coordinates and distances are JavaScript numbers; the search uses only
    their product and their [<=] test, so the numbers stay abstract, as do
    the two functions of geofire-common, each taken to return a value on the
    arguments it is given. *)

Class JsNumber (number : Type) : Type := {
  num_mul : number -> number -> number;
  num_leb : number -> number -> bool;
  num_of_Z : Z -> number
}.

#[export] Instance JsNumber_Z : JsNumber Z :=
  {| num_mul := Z.mul; num_leb := Z.leb; num_of_Z := fun z => z |}.

Section Nearby.
Context {number : Type} `{JsNumber number}.

(* geofire-common *)
Variable geohashQueryBounds : number * number -> number -> list (string * string).
Variable distanceBetween : number * number -> number * number -> number.

Record Saloon : Type := mkSaloon {
  saloon_name : string;
  geohash : string;
  location : number * number;         (* latitude, longitude *)
  saloon_id_field : option string     (* the field named id, if any *)
}.

#[global] Instance Transformable_Saloon : Transformable Saloon Saloon := {|
  timestamps_to_iso := fun data => data;
  id_field_of := saloon_id_field
|}.

Record SaloonWorld : Type := mkSaloonWorld {
  saloons : Collection Saloon;
  saloon_trace : list event
}.

(* getDocs(query(saloonsRef, where('geohash', '>=', lower),
                             where('geohash', '<=', upper))) *)
Definition in_range (lower upper : string) (d : Doc Saloon) : bool :=
  String.leb lower (geohash (doc_data d))
  && String.leb (geohash (doc_data d)) upper.

Definition getDocs_geohash (lower upper : string)
  : Async SaloonWorld (list (Doc Saloon)) :=
  modify (fun w => mkSaloonWorld (saloons w)
            (saloon_trace w ++ [GetDocsRange "saloons" "geohash" lower upper])) ;;
  gets (fun w => filter (in_range lower upper) (saloons w)).

Definition distanceInM (center : number * number) (doc : Doc Saloon) : number :=
  let lat := fst (location (doc_data doc)) in
  let lng := snd (location (doc_data doc)) in
  num_mul (distanceBetween (lat, lng) center) (num_of_Z 1000).

Definition getNearbySaloons (center : number * number) (radiusInM : number)
  : Async SaloonWorld (list (Doc Saloon)) :=
  let bounds := geohashQueryBounds center radiusInM in
  let promises := map (fun b => getDocs_geohash (fst b) (snd b)) bounds in
  snapshots <- all promises ;;
  let matchingDocs :=
    fold_left (fun (matchingDocs : list (Doc Saloon)) snap =>
      fold_left (fun (matchingDocs : list (Doc Saloon)) doc =>
        if num_leb (distanceInM center doc) radiusInM
        then (matchingDocs ++ [transformDoc doc])%list
        else matchingDocs) snap matchingDocs)
      snapshots [] in
  ret matchingDocs.

End Nearby.

Arguments Saloon number : clear implicits.
Arguments SaloonWorld number : clear implicits.

(** ** The Cloudinary upload *)

Module Cloudinary.

(** A parsed JSON value; an object is the list of its own properties. *)
#[warnings="-register-all"]
Inductive json : Type :=
| JNull
| JBool (b : bool)
| JNumber (n : Z)
| JString (s : string)
| JArray (items : list json)
| JObject (properties : list (string * json)).

Fixpoint assoc (key : string) (properties : list (string * json)) : option json :=
  match properties with
  | [] => None
  | (k, v) :: rest => if String.eqb k key then Some v else assoc key rest
  end.

(* value.key: undefined is None; reading a property of null throws *)
Definition get_property {St} (value : json) (key : string) : Async St (option json) :=
  match value with
  | JNull => throw (TypeError "Cannot read properties of null")
  | JObject properties => ret (assoc key properties)
  | _ => ret None
  end.

(* ToBoolean *)
Definition truthy (v : option json) : bool :=
  match v with
  | None => false
  | Some JNull => false
  | Some (JBool b) => b
  | Some (JNumber n) => negb (n =? 0)
  | Some (JString s) => negb (String.eqb s EmptyString)
  | Some (JArray _) => true
  | Some (JObject _) => true
  end.

Record FormData : Type := mkFormData {
  file_uri : string;
  file_type : string;
  file_name : string;
  upload_preset : string
}.

Record Request : Type := mkRequest {
  url : string;
  method : string;
  body : FormData;
  content_type : string
}.

(** What the network does with a request: the promise of [fetch] rejects, or
    resolves to a response whose body parses as JSON or does not. *)
Inductive FetchResult : Type :=
| Rejected (message : string)
| Response (parsed_body : option json).

Inductive console_line : Type :=
| ConsoleLog (message : string) (value : json)
| ConsoleError (message : string).

Record Net : Type := mkNet {
  respond : Request -> FetchResult;
  sent : list Request;
  console : list console_line
}.

Definition fetch (request : Request) : Async Net (option json) :=
  fun w =>
    let w' := mkNet (respond w) (sent w ++ [request]) (console w) in
    match respond w request with
    | Rejected message => (inr (NetworkError message), w')
    | Response parsed_body => (inl parsed_body, w')
    end.

(* response.json() *)
Definition response_json (response : option json) : Async Net json :=
  match response with
  | Some data => ret data
  | None => throw (SyntaxError "JSON Parse error")
  end.

Definition console_log (message : string) (value : json) : Async Net unit :=
  modify (fun w => mkNet (respond w) (sent w) (console w ++ [ConsoleLog message value])).

Definition console_error (message : string) : Async Net unit :=
  modify (fun w => mkNet (respond w) (sent w) (console w ++ [ConsoleError message])).

(* react-native-config *)
Record Config : Type := mkConfig {
  CLAUDINARY_CLOUD_NAME : string;
  CLAUDINARY_UPLOADS_PRESETS : string
}.

(** The result is [data.secure_url] or [null] ([JNull]). *)
Definition uploadImageToCloudinary (config : Config) (fileUri : string)
  : Async Net json :=
  let CLOUDINARY_CLOUD_NAME := CLAUDINARY_CLOUD_NAME config in
  let CLOUDINARY_UPLOAD_PRESET := CLAUDINARY_UPLOADS_PRESETS config in
  let formData :=
    mkFormData fileUri "image/jpeg" "upload.jpg" CLOUDINARY_UPLOAD_PRESET in
  let cloudinaryUrl :=
    ("https://api.cloudinary.com/v1_1/" ++ CLOUDINARY_CLOUD_NAME ++ "/image/upload")%string in
  try_catch
    (response <- fetch (mkRequest cloudinaryUrl "POST" formData "multipart/form-data") ;;
     data <- response_json response ;;
     secure_url <- get_property data "secure_url" ;;
     match secure_url with
     | Some url =>
         if truthy secure_url
         then console_log "Image uploaded successfully:" url ;; ret url
         else console_error "Cloudinary upload failed:" ;; ret JNull
     | None => console_error "Cloudinary upload failed:" ;; ret JNull
     end)
    (fun error => console_error "Error uploading image:" ;; ret JNull).

End Cloudinary.

(** ** Notions used to state the results *)

(** A time value a Date can hold. *)
Definition is_Date (time : Z) : Prop := - MAX_TIME <= time <= MAX_TIME.

(** A time value a Timestamp can hold: within the years 1 to 9999. *)
Definition storable (time : Z) : Prop :=
  -62135596800000 <= time < 253402300800000.

(** The loop of [createBooking] throws: some stored booking of the request's
    barber, whatever its status, passes the test. *)
Definition has_conflict (bookingData : Booking) (c : Collection Booking) : bool :=
  let bookingStart := new_Date (bookingTime bookingData) in
  let bookingEnd := Date_plus bookingStart (duration bookingData * 60000) in
  existsb (fun doc => Service.overlaps bookingStart bookingEnd (doc_data doc))
          (where_eq barberId (barberId bookingData) c).

(** The record [createBooking] writes. *)
Definition finalBookingData (now : Z) (bookingData : Booking) : Booking :=
  mkBooking (userId bookingData) (saloonId bookingData)
    (barberId bookingData) (serviceId bookingData)
    (bookingTime bookingData)
    (status bookingData) (price bookingData) (duration bookingData)
    (paymentDetails bookingData)
    (Some now) (id_field bookingData).

Definition existing_start (d : Doc Booking) : Z := bookingTime (doc_data d).

Definition existing_end (d : Doc Booking) : Z :=
  bookingTime (doc_data d) + duration (doc_data d) * 60000.

Definition request_end (bookingData : Booking) : Z :=
  bookingTime bookingData + duration bookingData * 60000.

(** Half-open overlap of the request with a stored booking of its barber,
    as the Dates of the code can see it: the two starts and the two ends are
    valid Dates. *)
Definition collides (bookingData : Booking) (d : Doc Booking) : Prop :=
  barberId (doc_data d) = barberId bookingData /\
  is_Date (bookingTime bookingData) /\
  is_Date (request_end bookingData) /\
  is_Date (existing_start d) /\
  is_Date (existing_end d) /\
  bookingTime bookingData < existing_end d /\
  request_end bookingData > existing_start d.

(** Two stored bookings of one barber do not overlap:
    [A.end <= B.start] or [B.end <= A.start]. *)
Definition apart (a b : Doc Booking) : Prop :=
  barberId (doc_data a) = barberId (doc_data b) ->
  existing_end a <= existing_start b \/ existing_end b <= existing_start a.

(** No barber is double-booked: every two bookings of the collection are
    [apart]. *)
Definition no_double_booking (c : Collection Booking) : Prop :=
  ForallOrdPairs apart c.

(** A sequence is in ascending order of a key that may be missing. *)
Definition key_le {A} (key : A -> option Z) (a b : A) : Prop :=
  match key a, key b with
  | Some x, Some y => x <= y
  | _, _ => True
  end.

Definition ascending_by {A} (key : A -> option Z) (l : list A) : Prop :=
  Sorted (key_le key) l.

Definition createdAt_stored (d : Doc Booking) : option Z :=
  createdAt (doc_data d).

Definition createdAt_iso (d : Doc (BookingOf IsoString)) : option Z :=
  option_map iso_ms (createdAt (doc_data d)).


(** What [Timestamp.fromDate] throws on the request's start, if it throws. *)
Definition start_rejected (bookingData : Booking) : option error :=
  match new_Date (bookingTime bookingData) with
  | None => Some (RangeError "Invalid time value")
  | Some milliseconds =>
      if (milliseconds / 1000 <? -62135596800)
         || (milliseconds / 1000 >=? 253402300800)
      then Some (FirestoreError "invalid-argument")
      else None
  end.

(** ** Sample data: one day, instants in milliseconds from its midnight *)

Definition clock (h m : Z) : Z := (h * 60 + m) * 60000.

Definition request (user barber : string) (start minutes : Z) : Booking :=
  mkBooking user "saloon1" barber "haircut" start (Some "pending") 300 minutes
            "cash" None None.

Definition stored (id user barber : string) (start minutes : Z)
  (st : string) (created : Z) : Doc Booking :=
  mkDoc id (mkBooking user "saloon1" barber "haircut" start (Some st) 300
                      minutes "cash" (Some created) None).

(** A toy geometry for running the search: integer coordinates, the distance
    in kilometres along the axes, and a single bound that spans every
    geohash made of lower-case letters and digits. *)
Definition grid_distance (a b : Z * Z) : Z :=
  Z.abs (fst a - fst b) + Z.abs (snd a - snd b).

Definition one_bound (center : Z * Z) (radiusInM : Z) : list (string * string) :=
  [("0", "~")].

Definition sample_saloons : Collection (Saloon Z) :=
  [mkDoc "s1" (mkSaloon "Near" "tdr1" (3, 4) None);
   mkDoc "s2" (mkSaloon "Far" "tdr9" (30, 40) None)].

(** The request [uploadImageToCloudinary] sends. *)
Definition upload_request (config : Cloudinary.Config) (fileUri : string)
  : Cloudinary.Request :=
  Cloudinary.mkRequest
    ("https://api.cloudinary.com/v1_1/"
       ++ Cloudinary.CLAUDINARY_CLOUD_NAME config ++ "/image/upload")%string
    "POST"
    (Cloudinary.mkFormData fileUri "image/jpeg" "upload.jpg"
       (Cloudinary.CLAUDINARY_UPLOADS_PRESETS config))
    "multipart/form-data".

Definition sample_config : Cloudinary.Config :=
  Cloudinary.mkConfig "demo" "unsigned_preset".

(** A network that gives the same answer to every request. *)
Definition net_answering (answer : Cloudinary.FetchResult) : Cloudinary.Net :=
  Cloudinary.mkNet (fun _ => answer) [] [].

Definition uploaded : Cloudinary.json :=
  Cloudinary.JObject
    [("public_id", Cloudinary.JString "abc");
     ("secure_url", Cloudinary.JString "https://res.cloudinary.com/demo/abc.jpg")].

(** ** The functions that only read or add documents

    For these the state is the collection itself.  The name [addDoc] draws
    is a parameter. *)

(* getDoc(doc(db, name, id)): the snapshot, None when exists() is false *)
Definition getDoc {D} (id : string) : Async (Collection D) (option (Doc D)) :=
  ref <- doc_ref id ;;
  gets (find (fun d => String.eqb (doc_id d) ref)).

(* getDocs(collection(db, name)) *)
Definition getDocs_all {D} : Async (Collection D) (list (Doc D)) :=
  gets (fun c => c).




(** src/services/api.js, the functions not modelled above. *)
Module ApiRest.

Definition getAllSaloons {number : Type}
  : Async (Collection (Saloon number)) (list (Doc (Saloon number))) :=
  getDocs_all.

Definition getSaloonById {number : Type} (saloonId : string)
  : Async (Collection (Saloon number)) (option (Doc (Saloon number))) :=
  getDoc saloonId.



End ApiRest.

(** The booking service, the functions not modelled above. *)
Module ServiceRest.

Definition getSaloonById {number : Type} (saloonId : string)
  : Async (Collection (Saloon number)) (Doc (Saloon number)) :=
  docSnap <- getDoc saloonId ;;
  match docSnap with
  | None => throw (JsError "Saloon not found")
  | Some found => ret (transformDoc found)
  end.

End ServiceRest.

(** ** Notions used to state the further results *)

(** Two requests ask for overlapping time of the same barber. *)
Definition requests_collide (a b : Booking) : Prop :=
  barberId a = barberId b /\
  bookingTime a < request_end b /\ request_end a > bookingTime b.

(** The bookings after [updateBookingStatus]: the first booking of that name
    has the new status, or nothing changed when there is none or the name is
    refused. *)
Definition status_set (bookingId newStatus : string) (c : Collection Booking)
  : Collection Booking :=
  if String.eqb bookingId "" then c
  else match update_doc bookingId (Api.with_status newStatus) c with
       | Some c' => c'
       | None => c
       end.

(** Two requests overlap, and their ends are times a Date can hold. *)
Definition requests_clash (a b : Booking) : Prop :=
  requests_collide a b /\ is_Date (request_end a) /\ is_Date (request_end b).

(** An id that names a document: not empty, no '/', neither "." nor "..",
    not of the reserved form __*__, at most 1500 bytes. *)
Fixpoint has_slash (s : string) : bool :=
  match s with
  | EmptyString => false
  | String c rest => Ascii.eqb c "/"%char || has_slash rest
  end.

Definition reserved_name (id : string) : bool :=
  Nat.leb 4 (String.length id)
  && String.prefix "__" id
  && String.eqb (String.substring (String.length id - 2) 2 id) "__".

Definition plain_name (id : string) : bool :=
  negb (String.eqb id "") && negb (has_slash id)
  && negb (String.eqb id ".") && negb (String.eqb id "..")
  && negb (reserved_name id) && Nat.leb (String.length id) 1500.

(** What the overlap test reads of a stored booking. *)
Definition slot (d : Doc Booking) : string * Z * Z :=
  (barberId (doc_data d), existing_start d, existing_end d).



(** * Results *)

(** ** The store primitives *)

Lemma where_eq_In {D} (field : D -> string) (value : string) (c : Collection D) d :
  In d (where_eq field value c) <-> In d c /\ field (doc_data d) = value.
Proof.
  unfold where_eq. rewrite filter_In, String.eqb_eq. reflexivity.
Qed.

Lemma where_eq_app {D} (field : D -> string) value (c c' : Collection D) :
  where_eq field value (c ++ c') = where_eq field value c ++ where_eq field value c'.
Proof. apply filter_app. Qed.

(** A document written under a fresh name is placed between the documents of
    smaller and of greater names, which keep their places. *)
Lemma set_doc_fresh_split {D} (d : Doc D) (c : Collection D) :
  ~ In (doc_id d) (ids c) ->
  exists pre post,
    c = pre ++ post /\ set_doc d c = pre ++ d :: post /\
    Forall (fun x => String.compare (doc_id d) (doc_id x) = Gt) pre /\
    match post with
    | [] => True
    | x :: _ => String.compare (doc_id d) (doc_id x) = Lt
    end.
Proof.
  induction c as [|x rest IH]; simpl; intros Hfresh.
  - exists [], []. repeat split. constructor.
  - destruct (String.compare (doc_id d) (doc_id x)) eqn:Hcmp.
    + exfalso. apply Hfresh. left. symmetry.
      apply String.compare_eq_iff. exact Hcmp.
    + exists [], (x :: rest). repeat split; [constructor|exact Hcmp].
    + destruct IH as (pre & post & Hc & Hset & Hpre & Hpost).
      { intros Hin. apply Hfresh. right. exact Hin. }
      exists (x :: pre), post. rewrite Hset, Hc. repeat split.
      * constructor; assumption.
      * exact Hpost.
Qed.

Lemma set_doc_fresh_In {D} (d : Doc D) (c : Collection D) (x : Doc D) :
  ~ In (doc_id d) (ids c) -> (In x (set_doc d c) <-> x = d \/ In x c).
Proof.
  intros Hfresh.
  destruct (set_doc_fresh_split d c Hfresh) as (pre & post & -> & -> & _).
  rewrite !in_app_iff. simpl. split.
  - intros [Hx|[Hx|Hx]]; auto.
  - intros [Hx|[Hx|Hx]]; auto.
Qed.

Lemma set_doc_fresh_length {D} (d : Doc D) (c : Collection D) :
  ~ In (doc_id d) (ids c) -> List.length (set_doc d c) = S (List.length c).
Proof.
  intros Hfresh.
  destruct (set_doc_fresh_split d c Hfresh) as (pre & post & -> & -> & _).
  rewrite !length_app. simpl. lia.
Qed.

Lemma set_doc_fresh_perm {D} (d : Doc D) (c : Collection D) :
  ~ In (doc_id d) (ids c) -> Permutation (set_doc d c) (d :: c).
Proof.
  intros Hfresh.
  destruct (set_doc_fresh_split d c Hfresh) as (pre & post & -> & -> & _).
  symmetry. apply Permutation_middle.
Qed.

Lemma in_ids_set_doc {D} (d : Doc D) (c : Collection D) (x : string) :
  In x (ids (set_doc d c)) <-> In x (ids c) \/ x = doc_id d.
Proof.
  induction c as [|y rest IH]; simpl.
  - split; [intros [Heq|[]]; auto|intros [[]|Heq]; auto].
  - destruct (String.compare (doc_id d) (doc_id y)) eqn:Hcmp; simpl.
    + apply String.compare_eq_iff in Hcmp. rewrite Hcmp.
      split; [intros [Hx|Hx]; auto|intros [[Hx|Hx]|Hx]; auto].
    + split; [intros [Hx|[Hx|Hx]]; auto|intros [[Hx|Hx]|Hx]; auto].
    + rewrite IH. tauto.
Qed.

Lemma update_doc_found {D} (id : string) (f : D -> D) (c : Collection D) :
  In id (ids c) ->
  exists pre d post,
    c = (pre ++ d :: post)%list /\ doc_id d = id /\ ~ In id (ids pre) /\
    update_doc id f c = Some (pre ++ mkDoc id (f (doc_data d)) :: post)%list.
Proof.
  induction c as [|x rest IH]; simpl; intros Hin.
  - contradiction.
  - destruct (String.eqb_spec (doc_id x) id) as [Heq|Hne].
    + exists [], x, rest. simpl. auto.
    + destruct Hin as [Hx|Hin]; [contradiction|].
      destruct (IH Hin) as (pre & d & post & Hc & Hid & Hpre & Hup).
      exists (x :: pre), d, post. rewrite Hup, Hc. simpl.
      repeat split; auto.
      intros [Hx|Hp]; [contradiction|auto].
Qed.

Lemma update_doc_missing {D} (id : string) (f : D -> D) (c : Collection D) :
  ~ In id (ids c) -> update_doc id f c = None.
Proof.
  induction c as [|x rest IH]; simpl; intros Hnot.
  - reflexivity.
  - destruct (String.eqb_spec (doc_id x) id) as [Heq|Hne].
    + exfalso. apply Hnot. now left.
    + rewrite IH; [reflexivity|]. intros Hin. apply Hnot. now right.
Qed.

(** ** Dates *)

Lemma plain_name_nonempty id : plain_name id = true -> id <> "".
Proof.
  unfold plain_name. intros Hplain ->. discriminate Hplain.
Qed.

Lemma new_Date_valid time : is_Date time -> new_Date time = Some time.
Proof.
  unfold is_Date, new_Date. intros [Hlo Hhi].
  apply Z.leb_le in Hlo, Hhi. rewrite Hlo, Hhi. reflexivity.
Qed.

Lemma new_Date_invalid time : ~ is_Date time -> new_Date time = None.
Proof.
  unfold is_Date, new_Date. intros Hnot.
  destruct (Z.leb_spec (- MAX_TIME) time), (Z.leb_spec time MAX_TIME);
    simpl; try reflexivity.
  exfalso. apply Hnot. split; assumption.
Qed.

Lemma is_Date_dec time : {is_Date time} + {~ is_Date time}.
Proof.
  unfold is_Date.
  destruct (Z_le_dec (- MAX_TIME) time), (Z_le_dec time MAX_TIME);
    [left; split; assumption|right|right|right]; intros [? ?]; contradiction.
Qed.

Lemma storable_is_Date time : storable time -> is_Date time.
Proof. unfold storable, is_Date, MAX_TIME. lia. Qed.

Lemma start_rejected_storable bookingData :
  start_rejected bookingData = None <-> storable (bookingTime bookingData).
Proof.
  unfold start_rejected, storable.
  destruct (is_Date_dec (bookingTime bookingData)) as [Hd|Hd].
  - rewrite (new_Date_valid _ Hd).
    destruct (Z.ltb_spec (bookingTime bookingData / 1000) (-62135596800)) as [Hlo|Hlo];
      simpl.
    + split; [discriminate|]. intros [Hge _]. exfalso.
      assert (-62135596800 <= bookingTime bookingData / 1000)
        by (apply Z.div_le_lower_bound; lia). lia.
    + destruct (Z.geb_spec (bookingTime bookingData / 1000) 253402300800) as [Hhi|Hhi].
      * split; [discriminate|]. intros [_ Hlt]. exfalso.
        assert (bookingTime bookingData / 1000 < 253402300800)
          by (apply Z.div_lt_upper_bound; lia). lia.
      * split; [|reflexivity]. intros _.
        pose proof (Z.mul_div_le (bookingTime bookingData) 1000 ltac:(lia)).
        pose proof (Z.mul_succ_div_gt (bookingTime bookingData) 1000 ltac:(lia)).
        lia.
  - rewrite (new_Date_invalid _ Hd). split; [discriminate|].
    intros Hs. exfalso. apply Hd, storable_is_Date, Hs.
Qed.

Lemma start_rejected_out_of_range bookingData :
  is_Date (bookingTime bookingData) -> ~ storable (bookingTime bookingData) ->
  start_rejected bookingData = Some (FirestoreError "invalid-argument").
Proof.
  intros Hd Hs. pose proof (start_rejected_storable bookingData) as Hiff.
  unfold start_rejected in *. rewrite (new_Date_valid _ Hd) in *.
  destruct (_ || _); [reflexivity|]. exfalso. apply Hs, Hiff. reflexivity.
Qed.

(** ** The loop of [createBooking] and its closed form *)

Lemma for_of_throw_if {St A} (test : A -> bool) (e : error) (xs : list A) (s : St) :
  for_of xs (fun x => if test x then throw e else ret tt) s =
  if existsb test xs then (inr e, s) else (inl tt, s).
Proof.
  induction xs as [|x rest IH]; simpl.
  - reflexivity.
  - unfold bind. destruct (test x); simpl.
    + reflexivity.
    + apply IH.
Qed.

Lemma Timestamp_fromDate_run {St} bookingData (s : St) :
  Timestamp_fromDate (new_Date (bookingTime bookingData)) s
  = match start_rejected bookingData with
    | Some e => (inr e, s)
    | None => (inl (bookingTime bookingData), s)
    end.
Proof.
  unfold Timestamp_fromDate, start_rejected.
  destruct (is_Date_dec (bookingTime bookingData)) as [Hd|Hd].
  - rewrite (new_Date_valid _ Hd).
    destruct (bookingTime bookingData / 1000 <? -62135596800); [reflexivity|].
    destruct (bookingTime bookingData / 1000 >=? 253402300800); reflexivity.
  - rewrite (new_Date_invalid _ Hd). reflexivity.
Qed.

Lemma createBooking_run now newBookingRef bookingData w :
  Service.createBooking now newBookingRef bookingData w =
  let read := GetDocs "bookings" "barberId" (barberId bookingData) in
  let failed e :=
    (inr e,
     mkWorld (bookings w) []
       (trace w ++ [read; Console_error "Booking Transaction Failed:" e])) in
  if has_conflict bookingData (bookings w)
  then failed Service.slot_unavailable
  else match start_rejected bookingData with
       | Some e => failed e
       | None =>
           (inl newBookingRef,
            mkWorld (set_doc (mkDoc newBookingRef (finalBookingData now bookingData))
                             (bookings w))
                    []
                    (trace w ++ [read; TxSet "bookings" newBookingRef]))
       end.
Proof.
  unfold Service.createBooking, try_catch, runTransaction, getDocs, log, gets,
    modify, transaction_set, has_conflict.
  unfold bind at 1 2 3. cbn [rollback bookings tx_buffer trace field_name field_get].
  unfold bind at 1. rewrite for_of_throw_if.
  cbn [bookings tx_buffer trace].
  destruct (existsb _ _).
  - unfold bind, throw. cbn [rollback bookings tx_buffer trace].
    rewrite <- app_assoc. reflexivity.
  - unfold bind at 1. rewrite Timestamp_fromDate_run.
    destruct (start_rejected bookingData) as [e|].
    + unfold bind, throw. cbn [rollback bookings tx_buffer trace].
      rewrite <- app_assoc. reflexivity.
    + unfold bind, ret, modify, commit, finalBookingData.
      cbn [rollback bookings tx_buffer trace fold_left map app doc_id].
      rewrite <- app_assoc. reflexivity.
Qed.

(** The test of the loop body on a stored booking: it holds exactly when the
    starts and the ends of the request and of the stored booking are valid
    Dates and the two intervals overlap as half-open intervals. *)
Lemma overlaps_iff bookingData existing :
  Service.overlaps (new_Date (bookingTime bookingData))
    (Date_plus (new_Date (bookingTime bookingData)) (duration bookingData * 60000))
    existing = true <->
  is_Date (bookingTime bookingData) /\
  is_Date (request_end bookingData) /\
  is_Date (bookingTime existing) /\
  is_Date (bookingTime existing + duration existing * 60000) /\
  bookingTime bookingData < bookingTime existing + duration existing * 60000 /\
  request_end bookingData > bookingTime existing.
Proof.
  unfold Service.overlaps, toDate, request_end.
  destruct (is_Date_dec (bookingTime bookingData)) as [Hs|Hs];
    [rewrite (new_Date_valid _ Hs)
    |rewrite (new_Date_invalid _ Hs); simpl; split; [discriminate|tauto]].
  destruct (is_Date_dec (bookingTime existing)) as [Ht|Ht];
    [rewrite (new_Date_valid _ Ht)
    |rewrite (new_Date_invalid _ Ht); cbn [Date_plus Date_lt andb];
     split; [discriminate|tauto]].
  unfold Date_plus.
  destruct (is_Date_dec (bookingTime bookingData + duration bookingData * 60000))
    as [He|He];
    destruct (is_Date_dec (bookingTime existing + duration existing * 60000))
      as [Hx|Hx].
  - rewrite (new_Date_valid _ He), (new_Date_valid _ Hx). simpl.
    rewrite andb_true_iff, Z.ltb_lt, Z.gtb_gt. tauto.
  - rewrite (new_Date_valid _ He), (new_Date_invalid _ Hx). simpl.
    split; [discriminate|tauto].
  - rewrite (new_Date_invalid _ He), (new_Date_valid _ Hx). simpl.
    rewrite andb_false_r. split; [discriminate|tauto].
  - rewrite (new_Date_invalid _ He), (new_Date_invalid _ Hx). simpl.
    split; [discriminate|tauto].
Qed.

Lemma has_conflict_iff bookingData c :
  has_conflict bookingData c = true <->
  exists d, In d c /\ collides bookingData d.
Proof.
  unfold has_conflict, collides, existing_end, existing_start.
  rewrite existsb_exists. split.
  - intros (d & Hin & Hov). apply where_eq_In in Hin. apply overlaps_iff in Hov.
    exists d. tauto.
  - intros (d & Hin & Hb & Hov). exists d. split.
    + apply where_eq_In. tauto.
    + apply overlaps_iff. exact Hov.
Qed.

Lemma has_conflict_false_iff bookingData c :
  has_conflict bookingData c = false <->
  ~ exists d, In d c /\ collides bookingData d.
Proof.
  rewrite <- has_conflict_iff. destruct (has_conflict bookingData c); split;
    congruence.
Qed.

Lemma createBooking_outcome now newBookingRef bookingData w :
  fst (Service.createBooking now newBookingRef bookingData w) =
  if has_conflict bookingData (bookings w) then inr Service.slot_unavailable
  else match start_rejected bookingData with
       | Some e => inr e
       | None => inl newBookingRef
       end.
Proof.
  rewrite createBooking_run. cbv zeta.
  destruct (has_conflict _ _); [reflexivity|].
  destruct (start_rejected bookingData); reflexivity.
Qed.

Lemma createBooking_bookings now newBookingRef bookingData w :
  bookings (snd (Service.createBooking now newBookingRef bookingData w)) =
  if has_conflict bookingData (bookings w) then bookings w
  else match start_rejected bookingData with
       | Some _ => bookings w
       | None => set_doc (mkDoc newBookingRef (finalBookingData now bookingData))
                         (bookings w)
       end.
Proof.
  rewrite createBooking_run. cbv zeta.
  destruct (has_conflict _ _); [reflexivity|].
  destruct (start_rejected bookingData); reflexivity.
Qed.

Lemma start_rejected_not_slot bookingData :
  start_rejected bookingData <> Some Service.slot_unavailable.
Proof.
  unfold start_rejected.
  destruct (new_Date _); [|discriminate].
  destruct (_ || _); discriminate.
Qed.

Lemma createBooking_rejects_iff now newBookingRef bookingData w :
  fst (Service.createBooking now newBookingRef bookingData w)
    = inr Service.slot_unavailable <->
  has_conflict bookingData (bookings w) = true.
Proof.
  rewrite createBooking_outcome.
  destruct (has_conflict bookingData (bookings w)).
  - split; reflexivity.
  - pose proof (start_rejected_not_slot bookingData) as Hne.
    destruct (start_rejected bookingData); split; intros Heq;
      try discriminate; congruence.
Qed.

Lemma createBooking_succeeds_iff now newBookingRef bookingData w :
  fst (Service.createBooking now newBookingRef bookingData w)
    = inl newBookingRef <->
  has_conflict bookingData (bookings w) = false /\
  storable (bookingTime bookingData).
Proof.
  rewrite createBooking_outcome, <- start_rejected_storable.
  destruct (has_conflict bookingData (bookings w)).
  - split; [discriminate|intros [Hc _]; discriminate].
  - destruct (start_rejected bookingData); split.
    + discriminate.
    + intros [_ He]. discriminate.
    + auto.
    + reflexivity.
Qed.

(** ** Conflict detection *)




(** The three interval scenarios of the specification, run on the model:
    [10:00,10:30) then [10:30,11:00) is committed. *)
Example back_to_back_is_committed :
  Service.createBooking 7 "b2" (request "u2" "barber1" (clock 10 30) 30)
    (world_of [stored "b1" "u1" "barber1" (clock 10 0) 30 "pending" 0])
  = (inl "b2",
     mkWorld [stored "b1" "u1" "barber1" (clock 10 0) 30 "pending" 0;
              stored "b2" "u2" "barber1" (clock 10 30) 30 "pending" 7]
             []
             [GetDocs "bookings" "barberId" "barber1"; TxSet "bookings" "b2"]).
Proof. vm_compute. reflexivity. Qed.

(** [10:00,10:30) requested twice: the second request is rejected. *)
Example exact_overlap_is_rejected :
  fst (Service.createBooking 7 "b2" (request "u2" "barber1" (clock 10 0) 30)
         (world_of [stored "b1" "u1" "barber1" (clock 10 0) 30 "pending" 0]))
  = inr Service.slot_unavailable.
Proof. vm_compute. reflexivity. Qed.

(** Stored [10:00,11:00), requested [10:30,11:30): rejected. *)
Example partial_overlap_is_rejected :
  fst (Service.createBooking 7 "b2" (request "u2" "barber1" (clock 10 30) 60)
         (world_of [stored "b1" "u1" "barber1" (clock 10 0) 60 "pending" 0]))
  = inr Service.slot_unavailable.
Proof. vm_compute. reflexivity. Qed.

(** ** Status and conflict detection *)

Lemma updateBookingStatus_run bookingId newStatus w :
  Api.updateBookingStatus bookingId newStatus w =
  if String.eqb bookingId "" then (inr (FirestoreError "invalid-argument"), w)
  else
    let sent := (trace w ++ [UpdateDoc "bookings" bookingId])%list in
    match update_doc bookingId (Api.with_status newStatus) (bookings w) with
    | Some c => (inl tt, mkWorld c (tx_buffer w) sent)
    | None => (inr (FirestoreError "not-found"),
               mkWorld (bookings w) (tx_buffer w) sent)
    end.
Proof.
  unfold Api.updateBookingStatus, updateDoc, doc_ref, log, modify, bind.
  destruct (String.eqb bookingId ""); [reflexivity|]. simpl.
  destruct (update_doc _ _ _); reflexivity.
Qed.

Lemma has_conflict_cons bookingData x rest :
  has_conflict bookingData (x :: rest) =
  (String.eqb (barberId (doc_data x)) (barberId bookingData)
   && Service.overlaps (new_Date (bookingTime bookingData))
        (Date_plus (new_Date (bookingTime bookingData))
                   (duration bookingData * 60000))
        (doc_data x))
  || has_conflict bookingData rest.
Proof.
  unfold has_conflict, where_eq. cbn [filter].
  destruct (String.eqb _ _); reflexivity.
Qed.

Lemma has_conflict_app bookingData c c' :
  has_conflict bookingData (c ++ c')
  = has_conflict bookingData c || has_conflict bookingData c'.
Proof.
  unfold has_conflict. rewrite where_eq_app. apply existsb_app.
Qed.

Lemma has_conflict_update_status bookingData bookingId newStatus c c' :
  update_doc bookingId (Api.with_status newStatus) c = Some c' ->
  has_conflict bookingData c' = has_conflict bookingData c.
Proof.
  revert c'. induction c as [|x rest IH]; simpl; intros c' Hup.
  - discriminate.
  - destruct (String.eqb (doc_id x) bookingId).
    + injection Hup as <-. rewrite !has_conflict_cons. reflexivity.
    + destruct (update_doc bookingId _ rest) as [rest'|]; [|discriminate].
      injection Hup as <-. rewrite !has_conflict_cons, (IH rest' eq_refl).
      reflexivity.
Qed.

Lemma has_conflict_after_update bookingData bookingId newStatus w :
  has_conflict bookingData
    (bookings (snd (Api.updateBookingStatus bookingId newStatus w)))
  = has_conflict bookingData (bookings w).
Proof.
  rewrite updateBookingStatus_run. cbv zeta.
  destruct (String.eqb bookingId ""); [reflexivity|].
  destruct (update_doc _ _ _) as [c|] eqn:Hup; simpl.
  - apply (has_conflict_update_status _ _ _ _ _ Hup).
  - reflexivity.
Qed.

(** C2, as the code has it. [createBooking] tests every stored booking of
    the barber, whatever its status: changing the status of any booking
    (cancelling it, completing it) leaves the outcome of every later request
    as it was, and a stored booking that collides with the request rejects
    it without any condition on its status. *)
Theorem createBooking_blocked_whatever_status
  (now : Z) (newBookingRef : string) (bookingData : Booking) (w : World) :
  (forall bookingId newStatus,
      fst (Service.createBooking now newBookingRef bookingData
             (snd (Api.updateBookingStatus bookingId newStatus w)))
      = fst (Service.createBooking now newBookingRef bookingData w)) /\
  (forall d, In d (bookings w) -> collides bookingData d ->
             fst (Service.createBooking now newBookingRef bookingData w)
             = inr Service.slot_unavailable).
Proof.
  split.
  - intros bookingId newStatus.
    rewrite !createBooking_outcome, has_conflict_after_update. reflexivity.
  - intros d Hin Hcol. apply createBooking_rejects_iff, has_conflict_iff.
    exists d. split; assumption.
Qed.

Lemma createBooking_blocked_whatever_status_witness :
  fst (Service.createBooking 9 "b2" (request "u2" "barber1" (clock 10 0) 30)
         (world_of [stored "b1" "u1" "barber1" (clock 10 0) 30 "cancelled" 0]))
  = inr Service.slot_unavailable.
Proof.
  apply (proj2 (createBooking_blocked_whatever_status 9 "b2"
                  (request "u2" "barber1" (clock 10 0) 30)
                  (world_of [stored "b1" "u1" "barber1" (clock 10 0) 30
                                    "cancelled" 0]))
               (stored "b1" "u1" "barber1" (clock 10 0) 30 "cancelled" 0)).
  - simpl. left. reflexivity.
  - unfold collides, is_Date. vm_compute.
    repeat split; try reflexivity; discriminate.
Defined.

(** C2 as stated fails: a pending booking [10:00,10:30) is cancelled, and the
    request for the same interval with the same barber is still rejected. *)
Lemma cancelled_booking_still_blocks :
  let w0 := world_of [stored "b1" "u1" "barber1" (clock 10 0) 30 "pending" 0] in
  let cancelled := Api.updateBookingStatus "b1" "cancelled" w0 in
  fst cancelled = inl tt /\
  bookings (snd cancelled)
    = [stored "b1" "u1" "barber1" (clock 10 0) 30 "cancelled" 0] /\
  Service.createBooking 9 "b2" (request "u2" "barber1" (clock 10 0) 30)
    (snd cancelled)
  = (inr Service.slot_unavailable,
     mkWorld [stored "b1" "u1" "barber1" (clock 10 0) 30 "cancelled" 0] []
             [UpdateDoc "bookings" "b1";
              GetDocs "bookings" "barberId" "barber1";
              Console_error "Booking Transaction Failed:"
                            Service.slot_unavailable]).
Proof. vm_compute. repeat split; reflexivity. Qed.

(** ** What a request leaves in the store *)

Lemma not_in_ids_single (id other : string) (b : Booking) :
  id <> other -> ~ In id (ids [mkDoc other b]).
Proof. intros Hne [Heq|[]]. apply Hne. symmetry. exact Heq. Qed.




(** ** Conflicts are scoped to the barber *)

Lemma has_conflict_scoped bookingData c c' :
  where_eq barberId (barberId bookingData) c
  = where_eq barberId (barberId bookingData) c' ->
  has_conflict bookingData c = has_conflict bookingData c'.
Proof. unfold has_conflict. intros ->. reflexivity. Qed.

Lemma where_eq_other_barber value (d : Doc Booking) :
  barberId (doc_data d) <> value -> where_eq barberId value [d] = [].
Proof.
  intros Hne. unfold where_eq. cbn [filter].
  destruct (String.eqb _ _) eqn:Heq; [|reflexivity].
  apply String.eqb_eq in Heq. contradiction.
Qed.

Lemma where_eq_set_doc_other_barber value (d : Doc Booking) c :
  ~ In (doc_id d) (ids c) -> barberId (doc_data d) <> value ->
  where_eq barberId value (set_doc d c) = where_eq barberId value c.
Proof.
  intros Hfresh Hother.
  destruct (set_doc_fresh_split d c Hfresh) as (pre & post & -> & -> & _).
  change (d :: post) with ([d] ++ post).
  rewrite !where_eq_app, where_eq_other_barber by exact Hother. reflexivity.
Qed.

(** C5. The only read of [createBooking] is the query of the bookings whose
    [barberId] is the request's, and the request is rejected as unavailable
    exactly when one of the bookings that query returns passes the overlap
    test: two stores that agree on the barber's bookings give the same
    outcome, so a booking of another barber, wherever it sits in the
    collection, changes nothing.  Hence a request committed for one barber
    leaves the outcome of a request for another barber as it was, and two
    requests with identical intervals for different barbers, neither of
    which collides with a stored booking of its own barber, and whose start
    a Timestamp can hold, are both committed, both records being in the
    collection afterwards. *)
Theorem createBooking_scoped_to_barber
  (now1 now2 : Z) (ref1 ref2 : string) (bookingData1 bookingData2 : Booking)
  (w : World)
  (Hbarbers : barberId bookingData1 <> barberId bookingData2)
  (Hfresh : ~ In ref1 (ids (bookings w))) :
  let first := Service.createBooking now1 ref1 bookingData1 w in
  let second := Service.createBooking now2 ref2 bookingData2 (snd first) in
  (exists rest,
      trace (snd first)
      = trace w ++ GetDocs "bookings" "barberId" (barberId bookingData1) :: rest
      /\ forall e, In e rest ->
                   e = TxSet "bookings" ref1 \/
                   exists message err, e = Console_error message err) /\
  (fst first = inr Service.slot_unavailable <->
   exists d, In d (where_eq barberId (barberId bookingData1) (bookings w)) /\
             Service.overlaps (new_Date (bookingTime bookingData1))
               (Date_plus (new_Date (bookingTime bookingData1))
                          (duration bookingData1 * 60000))
               (doc_data d) = true) /\
  (forall w',
      where_eq barberId (barberId bookingData1) (bookings w')
      = where_eq barberId (barberId bookingData1) (bookings w) ->
      fst (Service.createBooking now1 ref1 bookingData1 w') = fst first) /\
  (forall pre post other,
      bookings w = pre ++ other :: post ->
      barberId (doc_data other) <> barberId bookingData1 ->
      fst (Service.createBooking now1 ref1 bookingData1
             (mkWorld (pre ++ post) (tx_buffer w) (trace w)))
      = fst first) /\
  fst second = fst (Service.createBooking now2 ref2 bookingData2 w) /\
  (bookingTime bookingData1 = bookingTime bookingData2 ->
   duration bookingData1 = duration bookingData2 ->
   storable (bookingTime bookingData1) ->
   ~ (exists d, In d (bookings w) /\ collides bookingData1 d) ->
   ~ (exists d, In d (bookings w) /\ collides bookingData2 d) ->
   ~ In ref2 (ids (bookings w)) -> ref1 <> ref2 ->
   fst first = inl ref1 /\
   fst second = inl ref2 /\
   In (mkDoc ref1 (finalBookingData now1 bookingData1)) (bookings (snd second)) /\
   In (mkDoc ref2 (finalBookingData now2 bookingData2)) (bookings (snd second)) /\
   List.length (bookings (snd second)) = S (S (List.length (bookings w)))).
Proof.
  intros first second.
  assert (Hafter1 : has_conflict bookingData2 (bookings (snd first))
                    = has_conflict bookingData2 (bookings w)).
  { subst first. rewrite createBooking_bookings.
    destruct (has_conflict bookingData1 (bookings w)); [reflexivity|].
    destruct (start_rejected bookingData1); [reflexivity|].
    apply has_conflict_scoped, where_eq_set_doc_other_barber;
      [exact Hfresh|exact Hbarbers]. }
  assert (Hsecond : fst second
                    = fst (Service.createBooking now2 ref2 bookingData2 w)).
  { subst second. rewrite !createBooking_outcome, Hafter1. reflexivity. }
  split; [|split; [|split; [|split; [|split]]]].
  - subst first. rewrite createBooking_run. cbv zeta.
    destruct (has_conflict bookingData1 (bookings w)); cbn [snd trace].
    + eexists. split; [reflexivity|]. intros e [<-|[]]. right. eauto.
    + destruct (start_rejected bookingData1); cbn [snd trace].
      * eexists. split; [reflexivity|]. intros e0 [<-|[]]. right. eauto.
      * eexists. split; [reflexivity|]. intros e [<-|[]]. left. reflexivity.
  - subst first. rewrite createBooking_rejects_iff. unfold has_conflict.
    apply existsb_exists.
  - intros w' Hsame. subst first. rewrite !createBooking_outcome.
    rewrite (has_conflict_scoped _ _ _ Hsame). reflexivity.
  - intros pre post other Hw Hother. subst first. rewrite !createBooking_outcome.
    rewrite (has_conflict_scoped bookingData1 _ (bookings w)); [reflexivity|].
    cbn [bookings]. rewrite Hw, !where_eq_app.
    change (other :: post) with ([other] ++ post).
    rewrite where_eq_app, where_eq_other_barber by exact Hother. reflexivity.
  - exact Hsecond.
  - intros Hstart _ Hstorable Hnone1 Hnone2 Hfresh2 Hrefs.
    apply has_conflict_false_iff in Hnone1, Hnone2.
    assert (Hstorable2 : storable (bookingTime bookingData2))
      by (rewrite <- Hstart; exact Hstorable).
    apply start_rejected_storable in Hstorable, Hstorable2.
    assert (Hb1 : bookings (snd first)
                  = set_doc (mkDoc ref1 (finalBookingData now1 bookingData1))
                            (bookings w)).
    { subst first. rewrite createBooking_bookings, Hnone1, Hstorable. reflexivity. }
    assert (Hfresh2' : ~ In ref2 (ids (bookings (snd first)))).
    { rewrite Hb1, in_ids_set_doc. cbn [doc_id].
      intros [Hin|Heq]; [apply Hfresh2, Hin|apply Hrefs; symmetry; exact Heq]. }
    assert (Hb2 : bookings (snd second)
                  = set_doc (mkDoc ref2 (finalBookingData now2 bookingData2))
                            (bookings (snd first))).
    { subst second. rewrite createBooking_bookings, Hafter1, Hnone2, Hstorable2.
      reflexivity. }
    split; [|split; [|split; [|split]]].
    + subst first. rewrite createBooking_outcome, Hnone1, Hstorable. reflexivity.
    + rewrite Hsecond, createBooking_outcome, Hnone2, Hstorable2. reflexivity.
    + rewrite Hb2. apply set_doc_fresh_In; [exact Hfresh2'|]. right.
      rewrite Hb1. apply set_doc_fresh_In; [exact Hfresh|]. left. reflexivity.
    + rewrite Hb2. apply set_doc_fresh_In; [exact Hfresh2'|]. left. reflexivity.
    + rewrite Hb2, set_doc_fresh_length by exact Hfresh2'.
      rewrite Hb1, set_doc_fresh_length by exact Hfresh. reflexivity.
Qed.

Lemma createBooking_scoped_to_barber_witness :
  fst (Service.createBooking 1 "b1" (request "u1" "barber1" (clock 10 0) 30)
         (world_of [])) = inl "b1" /\
  fst (Service.createBooking 2 "b2" (request "u2" "barber2" (clock 10 0) 30)
         (snd (Service.createBooking 1 "b1"
                 (request "u1" "barber1" (clock 10 0) 30) (world_of []))))
  = inl "b2" /\
  In (stored "b1" "u1" "barber1" (clock 10 0) 30 "pending" 1)
     (bookings
        (snd (Service.createBooking 2 "b2" (request "u2" "barber2" (clock 10 0) 30)
                (snd (Service.createBooking 1 "b1"
                        (request "u1" "barber1" (clock 10 0) 30) (world_of [])))))) /\
  In (stored "b2" "u2" "barber2" (clock 10 0) 30 "pending" 2)
     (bookings
        (snd (Service.createBooking 2 "b2" (request "u2" "barber2" (clock 10 0) 30)
                (snd (Service.createBooking 1 "b1"
                        (request "u1" "barber1" (clock 10 0) 30) (world_of [])))))).
Proof.
  assert (Hbarbers : barberId (request "u1" "barber1" (clock 10 0) 30)
                     <> barberId (request "u2" "barber2" (clock 10 0) 30)).
  { simpl. discriminate. }
  assert (Hfresh : ~ In "b1" (ids (bookings (world_of [])))).
  { simpl. intros []. }
  pose proof (createBooking_scoped_to_barber 1 2 "b1" "b2"
                (request "u1" "barber1" (clock 10 0) 30)
                (request "u2" "barber2" (clock 10 0) 30)
                (world_of []) Hbarbers Hfresh) as (_ & _ & _ & _ & _ & Hboth).
  destruct Hboth as (H1 & H2 & H3 & H4 & _).
  - reflexivity.
  - reflexivity.
  - unfold storable. vm_compute. split; [discriminate|reflexivity].
  - intros (d & [] & _).
  - intros (d & [] & _).
  - simpl. intros [].
  - discriminate.
  - repeat split; assumption.
Defined.

(** ** Requests made one after the other never double-book a barber *)

Lemma apart_sym a b : apart a b -> apart b a.
Proof.
  unfold apart. intros Hab Hb. symmetry in Hb. destruct (Hab Hb); auto.
Qed.

Lemma ForallOrdPairs_insert {A} (R : A -> A -> Prop) (pre post : list A) (x : A) :
  ForallOrdPairs R (pre ++ post) ->
  (forall y, In y (pre ++ post) -> R y x /\ R x y) ->
  ForallOrdPairs R (pre ++ x :: post).
Proof.
  induction pre as [|y pre IH]; simpl; intros Hall Hx.
  - constructor; [|exact Hall].
    apply Forall_forall. intros y Hy. apply Hx. exact Hy.
  - inversion Hall as [|? ? Hy Hrest]; subst. constructor.
    + apply Forall_app in Hy as [Hpre Hpost]. apply Forall_app. split; [exact Hpre|].
      constructor; [|exact Hpost]. apply Hx. left. reflexivity.
    + apply IH; [exact Hrest|]. intros z Hz. apply Hx. right. exact Hz.
Qed.

(** The invariant of the data model, for calls that run one at a time and
    intervals whose bounds a Date can hold: if no two stored bookings of a
    barber overlap, then after [createBooking], committed or rejected, still
    no two do. *)
Theorem createBooking_keeps_no_double_booking
  (now : Z) (newBookingRef : string) (bookingData : Booking) (w : World) :
  ~ In newBookingRef (ids (bookings w)) ->
  no_double_booking (bookings w) ->
  is_Date (request_end bookingData) ->
  (forall d, In d (bookings w) ->
             barberId (doc_data d) = barberId bookingData ->
             is_Date (existing_start d) /\ is_Date (existing_end d)) ->
  no_double_booking
    (bookings (snd (Service.createBooking now newBookingRef bookingData w))).
Proof.
  intros Hfresh Hinv Hend Hends. rewrite createBooking_bookings.
  destruct (has_conflict bookingData (bookings w)) eqn:Hc; [exact Hinv|].
  destruct (start_rejected bookingData) eqn:Hstart; [exact Hinv|].
  apply start_rejected_storable, storable_is_Date in Hstart.
  apply has_conflict_false_iff in Hc.
  destruct (set_doc_fresh_split
              (mkDoc newBookingRef (finalBookingData now bookingData))
              (bookings w) Hfresh) as (pre & post & Hw & -> & _).
  unfold no_double_booking in *. rewrite Hw in Hinv.
  apply ForallOrdPairs_insert; [exact Hinv|].
  intros d Hin. rewrite <- Hw in Hin.
  assert (Hapart : apart d (mkDoc newBookingRef (finalBookingData now bookingData))).
  { intros Hbarber. cbn [doc_data finalBookingData barberId] in Hbarber.
    unfold existing_end, existing_start.
    cbn [doc_data finalBookingData bookingTime duration].
    fold (existing_end d). fold (existing_start d). fold (request_end bookingData).
    destruct (Z_lt_le_dec (bookingTime bookingData) (existing_end d)) as [Hlt|Hge];
      [|left; exact Hge].
    destruct (Z_lt_le_dec (existing_start d) (request_end bookingData)) as [Hgt|Hle];
      [|right; exact Hle].
    exfalso. apply Hc. exists d. split; [exact Hin|].
    destruct (Hends d Hin Hbarber) as [Hds Hde].
    refine (conj Hbarber (conj Hstart (conj Hend (conj Hds (conj Hde
                                                        (conj Hlt _)))))).
    lia. }
  split; [exact Hapart|apply apart_sym, Hapart].
Qed.

(** ** No validation of the request *)

(** C6, as the code has it. [createBooking] checks nothing about the request
    before it talks to the store: whatever the duration (zero and negative
    included) and the identifiers (empty included), the query of the barber's
    bookings is sent first, and when the barber has no stored booking and the
    start is a time a Timestamp can hold, the request is committed and its
    record written. *)
Theorem createBooking_validates_nothing
  (now : Z) (newBookingRef : string) (bookingData : Booking) (w : World) :
  let run := Service.createBooking now newBookingRef bookingData w in
  (exists rest,
      trace (snd run)
      = trace w ++ GetDocs "bookings" "barberId" (barberId bookingData) :: rest) /\
  (storable (bookingTime bookingData) ->
   where_eq barberId (barberId bookingData) (bookings w) = [] ->
   fst run = inl newBookingRef /\
   In (mkDoc newBookingRef (finalBookingData now bookingData))
      (bookings (snd run)) /\
   trace (snd run)
   = trace w ++ [GetDocs "bookings" "barberId" (barberId bookingData);
                 TxSet "bookings" newBookingRef]).
Proof.
  intros run. subst run. rewrite createBooking_run. cbv zeta.
  split.
  - destruct (has_conflict bookingData (bookings w)); cbn [snd trace].
    + eexists. reflexivity.
    + destruct (start_rejected bookingData); cbn [snd trace]; eexists; reflexivity.
  - intros Hstart Hnone. apply start_rejected_storable in Hstart.
    unfold has_conflict. rewrite Hnone, Hstart. cbn [existsb fst snd bookings trace].
    split; [reflexivity|split; [|reflexivity]].
    clear Hnone. induction (bookings w) as [|x rest IH]; simpl.
    + left. reflexivity.
    + destruct (String.compare newBookingRef (doc_id x)); simpl; auto.
Qed.

Lemma createBooking_validates_nothing_witness :
  fst (Service.createBooking 5 "b1" (request "" "" (clock 10 0) (-30)) (world_of []))
  = inl "b1".
Proof.
  pose proof (createBooking_validates_nothing 5 "b1"
                (request "" "" (clock 10 0) (-30)) (world_of [])) as [_ Hcommit].
  destruct Hcommit as (Hresult & _).
  - unfold storable. vm_compute. split; [discriminate|reflexivity].
  - reflexivity.
  - exact Hresult.
Defined.

(** C6 as stated fails: a request of duration zero, and one of negative
    duration with empty user and barber identifiers, each reads the store and
    is committed. *)
Lemma malformed_request_is_committed :
  Service.createBooking 5 "b1" (request "u1" "barber1" (clock 10 0) 0) (world_of [])
  = (inl "b1",
     mkWorld [stored "b1" "u1" "barber1" (clock 10 0) 0 "pending" 5] []
             [GetDocs "bookings" "barberId" "barber1"; TxSet "bookings" "b1"]) /\
  Service.createBooking 5 "b1" (request "" "" (clock 10 0) (-30)) (world_of [])
  = (inl "b1",
     mkWorld [stored "b1" "" "" (clock 10 0) (-30) "pending" 5] []
             [GetDocs "bookings" "barberId" ""; TxSet "bookings" "b1"]).
Proof. vm_compute. split; reflexivity. Qed.

(** ** Status updates *)

(** C7, as the code has it. [updateBookingStatus] checks no transition: for
    a booking that exists under the document name given, whatever its
    current status and whatever the requested one, the update succeeds, the
    booking's status becomes the requested one, and its other fields and the
    other bookings stay as they were. *)
Theorem updateBookingStatus_sets_any_status
  (bookingId newStatus : string) (w : World) :
  plain_name bookingId = true ->
  In bookingId (ids (bookings w)) ->
  exists pre d post updated,
    bookings w = pre ++ d :: post /\
    doc_id d = bookingId /\ ~ In bookingId (ids pre) /\
    Api.updateBookingStatus bookingId newStatus w
    = (inl tt,
       mkWorld (pre ++ mkDoc bookingId updated :: post) (tx_buffer w)
               (trace w ++ [UpdateDoc "bookings" bookingId])) /\
    status updated = Some newStatus /\
    userId updated = userId (doc_data d) /\
    saloonId updated = saloonId (doc_data d) /\
    barberId updated = barberId (doc_data d) /\
    serviceId updated = serviceId (doc_data d) /\
    bookingTime updated = bookingTime (doc_data d) /\
    price updated = price (doc_data d) /\
    duration updated = duration (doc_data d) /\
    paymentDetails updated = paymentDetails (doc_data d) /\
    createdAt updated = createdAt (doc_data d) /\
    id_field updated = id_field (doc_data d).
Proof.
  intros Hname Hin. rewrite updateBookingStatus_run. cbv zeta.
  apply plain_name_nonempty, String.eqb_neq in Hname. rewrite Hname.
  destruct (update_doc_found bookingId (Api.with_status newStatus) _ Hin)
    as (pre & d & post & Hw & Hid & Hpre & Hup).
  exists pre, d, post, (Api.with_status newStatus (doc_data d)).
  rewrite Hup. simpl. repeat split; auto.
Qed.

Lemma updateBookingStatus_sets_any_status_witness :
  exists updated,
    Api.updateBookingStatus "b1" "pending"
      (world_of [stored "b1" "u1" "barber1" (clock 10 0) 30 "completed" 0])
    = (inl tt, mkWorld [mkDoc "b1" updated] [] [UpdateDoc "bookings" "b1"])
    /\ status updated = Some "pending".
Proof.
  destruct (updateBookingStatus_sets_any_status "b1" "pending"
              (world_of [stored "b1" "u1" "barber1" (clock 10 0) 30 "completed" 0]))
    as (pre & d & post & updated & Hw & Hid & Hpre & Hrun & Hstatus & _).
  - reflexivity.
  - simpl. left. reflexivity.
  - destruct pre as [|x pre].
    + simpl in Hw. injection Hw as <- <-. exists updated. split; assumption.
    + exfalso. simpl in Hw. injection Hw as <- Hrest.
      destruct pre; discriminate Hrest.
Defined.

(** C7 as stated fails: a cancelled booking is completed, and a completed one
    is re-opened, without any error. *)
Lemma terminal_status_is_left :
  Api.updateBookingStatus "b1" "completed"
    (world_of [stored "b1" "u1" "barber1" (clock 10 0) 30 "cancelled" 0])
  = (inl tt,
     mkWorld [stored "b1" "u1" "barber1" (clock 10 0) 30 "completed" 0] []
             [UpdateDoc "bookings" "b1"]) /\
  Api.updateBookingStatus "b1" "pending"
    (world_of [stored "b1" "u1" "barber1" (clock 10 0) 30 "completed" 0])
  = (inl tt,
     mkWorld [stored "b1" "u1" "barber1" (clock 10 0) 30 "pending" 0] []
             [UpdateDoc "bookings" "b1"]).
Proof. vm_compute. split; reflexivity. Qed.

(** ** Listing bookings *)

Lemma getDocs_run f value w :
  getDocs f value w
  = (inl (where_eq (field_get f) value (bookings w)),
     mkWorld (bookings w) (tx_buffer w)
             (trace w ++ [GetDocs "bookings" (field_name f) value])).
Proof. reflexivity. Qed.

(** C8, as the code has it. [getUserBookings] and [getBarberBookings] each
    send one query and return a finite snapshot: exactly the stored bookings
    whose [userId] (resp. [barberId]) is the given one, each once, in the
    order in which the store enumerates them (the former passed through
    [transformDoc]); no ordering by [createdAt] is asked for.  The collection
    is left as it was. *)
Theorem bookings_listed_in_store_order (user barber : string) (w : World) :
  Service.getUserBookings user w
  = (inl (map transformDoc (filter (fun d => String.eqb (userId (doc_data d)) user)
                                   (bookings w))),
     mkWorld (bookings w) (tx_buffer w)
             (trace w ++ [GetDocs "bookings" "userId" user])) /\
  Api.getBarberBookings barber w
  = (inl (filter (fun d => String.eqb (barberId (doc_data d)) barber) (bookings w)),
     mkWorld (bookings w) (tx_buffer w)
             (trace w ++ [GetDocs "bookings" "barberId" barber])) /\
  (forall listed,
      fst (Service.getUserBookings user w) = inl listed ->
      forall v, In v listed <->
                exists d, In d (bookings w) /\ userId (doc_data d) = user /\
                          v = transformDoc d) /\
  (forall listed,
      fst (Api.getBarberBookings barber w) = inl listed ->
      forall d, In d listed <->
                In d (bookings w) /\ barberId (doc_data d) = barber).
Proof.
  assert (Huser : Service.getUserBookings user w
    = (inl (map transformDoc (where_eq userId user (bookings w))),
       mkWorld (bookings w) (tx_buffer w)
               (trace w ++ [GetDocs "bookings" "userId" user]))).
  { unfold Service.getUserBookings, bind. rewrite getDocs_run. reflexivity. }
  assert (Hbarber : Api.getBarberBookings barber w
    = (inl (where_eq barberId barber (bookings w)),
       mkWorld (bookings w) (tx_buffer w)
               (trace w ++ [GetDocs "bookings" "barberId" barber]))).
  { unfold Api.getBarberBookings. rewrite getDocs_run. reflexivity. }
  split; [exact Huser|split; [exact Hbarber|split]].
  - intros listed Hl v. rewrite Huser in Hl. simpl in Hl. injection Hl as <-.
    rewrite in_map_iff. split.
    + intros (d & <- & Hin). apply where_eq_In in Hin. exists d. tauto.
    + intros (d & Hin & Hu & ->). exists d. split; [reflexivity|].
      apply where_eq_In. tauto.
  - intros listed Hl d. rewrite Hbarber in Hl. simpl in Hl. injection Hl as <-.
    apply where_eq_In.
Qed.

Lemma bookings_listed_in_store_order_witness :
  In (transformDoc (stored "a" "u1" "barber1" (clock 10 0) 30 "pending" 2000))
     [transformDoc (stored "a" "u1" "barber1" (clock 10 0) 30 "pending" 2000)] <->
  exists d, In d [stored "a" "u1" "barber1" (clock 10 0) 30 "pending" 2000;
                  stored "b" "u2" "barber1" (clock 11 0) 30 "pending" 1000]
            /\ userId (doc_data d) = "u1"
            /\ transformDoc (stored "a" "u1" "barber1" (clock 10 0) 30 "pending" 2000)
               = transformDoc d.
Proof.
  apply (proj1 (proj2 (proj2 (bookings_listed_in_store_order "u1" "barber1"
    (world_of [stored "a" "u1" "barber1" (clock 10 0) 30 "pending" 2000;
               stored "b" "u2" "barber1" (clock 11 0) 30 "pending" 1000]))))).
  reflexivity.
Defined.

(** C8 as stated fails: two bookings committed by [createBooking], the second
    by a client whose clock is behind the first's, are listed in the order of
    the collection, which is not the order of [createdAt]. *)
Lemma bookings_listed_out_of_createdAt_order :
  let w1 := snd (Service.createBooking 2000 "a"
                   (request "u1" "barber1" (clock 10 0) 30) (world_of [])) in
  let w2 := snd (Service.createBooking 1000 "b"
                   (request "u1" "barber1" (clock 11 0) 30) w1) in
  (exists listed,
      fst (Service.getUserBookings "u1" w2) = inl listed /\
      map createdAt_iso listed = [Some 2000; Some 1000] /\
      ~ ascending_by createdAt_iso listed) /\
  (exists listed,
      fst (Api.getBarberBookings "barber1" w2) = inl listed /\
      map createdAt_stored listed = [Some 2000; Some 1000] /\
      ~ ascending_by createdAt_stored listed).
Proof.
  split; eexists; (split; [vm_compute; reflexivity|split; [reflexivity|]]).
  - intros Hsorted. inversion Hsorted as [|? ? _ Hhd]; subst.
    inversion Hhd as [|? ? Hle]; subst. vm_compute in Hle. apply Hle. reflexivity.
  - intros Hsorted. inversion Hsorted as [|? ? _ Hhd]; subst.
    inversion Hhd as [|? ? Hle]; subst. vm_compute in Hle. apply Hle. reflexivity.
Qed.

(** ** The proximity search *)

Section NearbyFacts.
Context {number : Type} `{JsNumber number}.
Variable geohashQueryBounds : number * number -> number -> list (string * string).
Variable distanceBetween : number * number -> number * number -> number.

Lemma all_getDocs_geohash (bounds : list (string * string)) (w : SaloonWorld number) :
  all (map (fun b => getDocs_geohash (fst b) (snd b)) bounds) w
  = (inl (map (fun b => filter (in_range (fst b) (snd b)) (saloons w)) bounds),
     mkSaloonWorld (saloons w)
       (saloon_trace w
        ++ map (fun b => GetDocsRange "saloons" "geohash" (fst b) (snd b)) bounds)).
Proof.
  revert w. induction bounds as [|b rest IH]; intros w; simpl.
  - rewrite app_nil_r. destruct w; reflexivity.
  - unfold bind at 1. unfold getDocs_geohash at 1.
    unfold bind at 1, modify, gets. unfold bind at 1. rewrite IH. simpl.
    rewrite <- app_assoc. reflexivity.
Qed.

Lemma push_matching center radiusInM
  (snap : list (Doc (Saloon number))) (matchingDocs : list (Doc (Saloon number))) :
  fold_left (fun (matchingDocs : list (Doc (Saloon number))) doc =>
               if num_leb (distanceInM distanceBetween center doc) radiusInM
               then matchingDocs ++ [transformDoc doc]
               else matchingDocs) snap matchingDocs
  = matchingDocs
    ++ map transformDoc
         (filter (fun doc => num_leb (distanceInM distanceBetween center doc) radiusInM)
                 snap).
Proof.
  revert matchingDocs. induction snap as [|doc rest IH]; intros matchingDocs; simpl.
  - symmetry. apply app_nil_r.
  - rewrite IH. destruct (num_leb _ _); simpl.
    + rewrite <- app_assoc. reflexivity.
    + reflexivity.
Qed.

Lemma push_matching_all center radiusInM
  (snapshots : list (list (Doc (Saloon number))))
  (matchingDocs : list (Doc (Saloon number))) :
  fold_left (fun (matchingDocs : list (Doc (Saloon number))) snap =>
     fold_left (fun (matchingDocs : list (Doc (Saloon number))) doc =>
               if num_leb (distanceInM distanceBetween center doc) radiusInM
               then matchingDocs ++ [transformDoc doc]
               else matchingDocs) snap matchingDocs) snapshots matchingDocs
  = matchingDocs
    ++ map transformDoc
         (filter (fun doc => num_leb (distanceInM distanceBetween center doc) radiusInM)
                 (List.concat snapshots)).
Proof.
  revert matchingDocs.
  induction snapshots as [|snap rest IH]; intros matchingDocs; simpl.
  - symmetry. apply app_nil_r.
  - rewrite IH, push_matching, filter_app, map_app, app_assoc. reflexivity.
Qed.

(** C9. [getNearbySaloons] resolves, and every saloon object it returns is
    the [transformDoc] of a stored saloon, found by one of the geohash range
    queries, whose distance to the centre as computed on the client
    ([distanceBetween] times 1000) is at most [radiusInM]; a candidate whose
    computed distance is not at most [radiusInM] is not returned. *)
Theorem getNearbySaloons_within_radius
  (center : number * number) (radiusInM : number) (w : SaloonWorld number) :
  exists matchingDocs,
    fst (getNearbySaloons geohashQueryBounds distanceBetween center radiusInM w)
    = inl matchingDocs /\
    Forall (fun saloon =>
              exists doc, In doc (saloons w) /\ saloon = transformDoc doc /\
                          num_leb (distanceInM distanceBetween center doc) radiusInM
                          = true)
           matchingDocs /\
    (forall saloon,
        In saloon matchingDocs <->
        exists b doc,
          In b (geohashQueryBounds center radiusInM) /\
          In doc (saloons w) /\
          String.leb (fst b) (geohash (doc_data doc)) = true /\
          String.leb (geohash (doc_data doc)) (snd b) = true /\
          num_leb (distanceInM distanceBetween center doc) radiusInM = true /\
          saloon = transformDoc doc) /\
    (forall doc,
        num_leb (distanceInM distanceBetween center doc) radiusInM = false ->
        forall saloon, In saloon matchingDocs -> saloon <> transformDoc doc).
Proof.
  unfold getNearbySaloons, bind. rewrite all_getDocs_geohash.
  rewrite push_matching_all. simpl.
  eexists. split; [reflexivity|].
  assert (Hchar : forall saloon,
    In saloon (map transformDoc
      (filter (fun doc => num_leb (distanceInM distanceBetween center doc) radiusInM)
         (List.concat (map (fun b => filter (in_range (fst b) (snd b)) (saloons w))
                      (geohashQueryBounds center radiusInM))))) <->
    exists b doc,
      In b (geohashQueryBounds center radiusInM) /\
      In doc (saloons w) /\
      String.leb (fst b) (geohash (doc_data doc)) = true /\
      String.leb (geohash (doc_data doc)) (snd b) = true /\
      num_leb (distanceInM distanceBetween center doc) radiusInM = true /\
      saloon = transformDoc doc).
  { intros saloon. rewrite in_map_iff. split.
    - intros (doc & <- & Hin). apply filter_In in Hin as [Hin Hnear].
      apply in_concat in Hin as (snap & Hsnap & Hdoc).
      apply in_map_iff in Hsnap as (b & <- & Hb).
      apply filter_In in Hdoc as [Hdoc Hrange].
      unfold in_range in Hrange. apply andb_true_iff in Hrange as [Hlo Hhi].
      exists b, doc. repeat split; assumption.
    - intros (b & doc & Hb & Hdoc & Hlo & Hhi & Hnear & ->).
      exists doc. split; [reflexivity|]. apply filter_In. split; [|exact Hnear].
      apply in_concat. exists (filter (in_range (fst b) (snd b)) (saloons w)). split.
      + apply in_map_iff. exists b. split; [reflexivity|exact Hb].
      + apply filter_In. split; [exact Hdoc|].
        unfold in_range. rewrite Hlo, Hhi. reflexivity. }
  split; [|split].
  - apply Forall_forall. intros saloon Hin.
    apply Hchar in Hin as (b & doc & _ & Hdoc & _ & _ & Hnear & ->).
    exists doc. repeat split; assumption.
  - exact Hchar.
  - intros doc Hfar saloon Hin ->.
    apply Hchar in Hin as (b & doc' & _ & _ & _ & _ & Hnear & Heq).
    assert (Hdata : doc_data doc = doc_data doc').
    { apply (f_equal doc_data) in Heq. exact Heq. }
    unfold distanceInM in Hfar, Hnear. rewrite Hdata in Hfar. congruence.
Qed.

End NearbyFacts.

(** The search run on the toy geometry: of a saloon 7 km away and one 70 km
    away, a radius of 10 km keeps the first. *)
Lemma getNearbySaloons_within_radius_witness :
  fst (getNearbySaloons one_bound grid_distance (0, 0) 10000
         (mkSaloonWorld sample_saloons []))
  = inl [mkDoc "s1" (mkSaloon "Near" "tdr1" (3, 4) None)] /\
  exists matchingDocs,
    fst (getNearbySaloons one_bound grid_distance (0, 0) 10000
           (mkSaloonWorld sample_saloons []))
    = inl matchingDocs /\
    Forall (fun saloon =>
              exists doc, In doc sample_saloons /\ saloon = transformDoc doc /\
                          num_leb (distanceInM grid_distance (0, 0) doc) 10000 = true)
           matchingDocs.
Proof.
  split; [vm_compute; reflexivity|].
  destruct (getNearbySaloons_within_radius one_bound grid_distance (0, 0) 10000
              (mkSaloonWorld sample_saloons []))
    as (matchingDocs & Hrun & Hall & _).
  exists matchingDocs. split; [exact Hrun|exact Hall].
Defined.

(** ** The upload *)

Lemma uploadImageToCloudinary_run config fileUri net :
  Cloudinary.uploadImageToCloudinary config fileUri net =
  let request := upload_request config fileUri in
  let sent := Cloudinary.sent net ++ [request] in
  let failed message :=
    (inl Cloudinary.JNull,
     Cloudinary.mkNet (Cloudinary.respond net) sent
       (Cloudinary.console net ++ [Cloudinary.ConsoleError message])) in
  match Cloudinary.respond net request with
  | Cloudinary.Rejected _ => failed "Error uploading image:"
  | Cloudinary.Response None => failed "Error uploading image:"
  | Cloudinary.Response (Some Cloudinary.JNull) => failed "Error uploading image:"
  | Cloudinary.Response (Some (Cloudinary.JObject properties)) =>
      match Cloudinary.assoc "secure_url" properties with
      | Some url =>
          if Cloudinary.truthy (Some url)
          then (inl url,
                Cloudinary.mkNet (Cloudinary.respond net) sent
                  (Cloudinary.console net
                   ++ [Cloudinary.ConsoleLog "Image uploaded successfully:" url]))
          else failed "Cloudinary upload failed:"
      | None => failed "Cloudinary upload failed:"
      end
  | Cloudinary.Response (Some _) => failed "Cloudinary upload failed:"
  end.
Proof.
  cbv beta zeta delta [Cloudinary.uploadImageToCloudinary try_catch bind
                       Cloudinary.fetch upload_request].
  destruct (Cloudinary.respond net _) as [message|[data|]]; try reflexivity.
  destruct data as [|b|n|s|items|properties]; try reflexivity.
  cbv beta zeta iota delta [Cloudinary.response_json Cloudinary.get_property ret].
  destruct (Cloudinary.assoc "secure_url" properties) as [url|]; [|reflexivity].
  destruct (Cloudinary.truthy (Some url)); reflexivity.
Qed.

(** C10. [uploadImageToCloudinary] never throws: for every configuration,
    file and behaviour of the network it returns a value.  That value is
    [data.secure_url] when the response parses to an object with a truthy
    [secure_url], and [null] in every other case: a rejected [fetch], a body
    that is not JSON, a parsed body that is [null] (whose property read
    throws inside the [try]), is not an object, or has no truthy
    [secure_url]. *)
Theorem uploadImageToCloudinary_never_throws
  (config : Cloudinary.Config) (fileUri : string) (net : Cloudinary.Net) :
  let answer := Cloudinary.respond net (upload_request config fileUri) in
  exists value,
    fst (Cloudinary.uploadImageToCloudinary config fileUri net) = inl value /\
    Cloudinary.sent (snd (Cloudinary.uploadImageToCloudinary config fileUri net))
    = Cloudinary.sent net ++ [upload_request config fileUri] /\
    (forall properties secure_url,
        answer = Cloudinary.Response (Some (Cloudinary.JObject properties)) ->
        Cloudinary.assoc "secure_url" properties = Some secure_url ->
        Cloudinary.truthy (Some secure_url) = true ->
        value = secure_url) /\
    (forall message,
        answer = Cloudinary.Rejected message -> value = Cloudinary.JNull) /\
    (answer = Cloudinary.Response None -> value = Cloudinary.JNull) /\
    (forall data,
        answer = Cloudinary.Response (Some data) ->
        (forall properties, data = Cloudinary.JObject properties ->
                            Cloudinary.truthy (Cloudinary.assoc "secure_url" properties)
                            = false) ->
        value = Cloudinary.JNull).
Proof.
  intros answer. subst answer. rewrite uploadImageToCloudinary_run. cbv zeta.
  destruct (Cloudinary.respond net (upload_request config fileUri))
    as [message|[data|]].
  - exists Cloudinary.JNull. cbn [fst snd Cloudinary.sent].
    repeat split; intros; try discriminate; reflexivity.
  - destruct data as [|b|n|s|items|properties];
      try (exists Cloudinary.JNull; cbn [fst snd Cloudinary.sent];
           repeat split; intros; try discriminate; reflexivity).
    destruct (Cloudinary.assoc "secure_url" properties) as [url|] eqn:Hurl.
    + destruct (Cloudinary.truthy (Some url)) eqn:Htruthy.
      * exists url. cbn [fst snd Cloudinary.sent]. split; [reflexivity|split; [reflexivity|]].
        split; [|split; [|split]]; try (intros; discriminate).
        -- intros properties' secure_url Heq Hassoc _.
           injection Heq as <-. congruence.
        -- intros data Heq Hnone. injection Heq as <-.
           specialize (Hnone properties eq_refl). congruence.
      * exists Cloudinary.JNull. cbn [fst snd Cloudinary.sent]. split; [reflexivity|split; [reflexivity|]].
        split; [|split; [|split]]; try (intros; discriminate); try reflexivity.
        intros properties' secure_url Heq Hassoc Htrue.
        injection Heq as <-. congruence.
    + exists Cloudinary.JNull. cbn [fst snd Cloudinary.sent]. split; [reflexivity|split; [reflexivity|]].
      split; [|split; [|split]]; try (intros; discriminate); try reflexivity.
      intros properties' secure_url Heq Hassoc Htrue.
      injection Heq as <-. congruence.
  - exists Cloudinary.JNull. cbn [fst snd Cloudinary.sent].
    repeat split; intros; try discriminate; reflexivity.
Qed.

Lemma uploadImageToCloudinary_never_throws_witness :
  exists value,
    fst (Cloudinary.uploadImageToCloudinary sample_config "file:///photo.jpg"
           (net_answering (Cloudinary.Response (Some uploaded))))
    = inl value /\
    value = Cloudinary.JString "https://res.cloudinary.com/demo/abc.jpg".
Proof.
  destruct (uploadImageToCloudinary_never_throws sample_config "file:///photo.jpg"
              (net_answering (Cloudinary.Response (Some uploaded))))
    as (value & Hrun & _ & Hurl & _).
  exists value. split; [exact Hrun|].
  apply (Hurl [("public_id", Cloudinary.JString "abc");
               ("secure_url",
                Cloudinary.JString "https://res.cloudinary.com/demo/abc.jpg")]).
  - reflexivity.
  - reflexivity.
  - reflexivity.
Defined.

(** The upload run on the failures the [try] block meets: a rejected fetch, a
    body that is not JSON, a body that is [null], an error object without
    [secure_url], an empty [secure_url]. *)
Example uploadImageToCloudinary_failures :
  map (fun answer =>
         fst (Cloudinary.uploadImageToCloudinary sample_config "file:///photo.jpg"
                (net_answering answer)))
      [Cloudinary.Rejected "Network request failed";
       Cloudinary.Response None;
       Cloudinary.Response (Some Cloudinary.JNull);
       Cloudinary.Response
         (Some (Cloudinary.JObject
                  [("error", Cloudinary.JObject
                               [("message", Cloudinary.JString "Upload preset not found")])]));
       Cloudinary.Response
         (Some (Cloudinary.JObject [("secure_url", Cloudinary.JString "")]))]
  = [inl Cloudinary.JNull; inl Cloudinary.JNull; inl Cloudinary.JNull;
     inl Cloudinary.JNull; inl Cloudinary.JNull].
Proof. vm_compute. reflexivity. Qed.


(** * Further results *)

(** ** The collection after a request *)

Lemma overlaps_final_iff now a b :
  Service.overlaps (new_Date (bookingTime a))
    (Date_plus (new_Date (bookingTime a)) (duration a * 60000))
    (finalBookingData now b) = true <->
  is_Date (bookingTime a) /\ is_Date (request_end a) /\
  is_Date (bookingTime b) /\ is_Date (request_end b) /\
  bookingTime a < request_end b /\ request_end a > bookingTime b.
Proof. rewrite overlaps_iff. unfold request_end. simpl. reflexivity. Qed.

(** The conflict test of request [a] after request [b] was committed under a
    fresh name. *)
Lemma has_conflict_after_commit now newBookingRef a b c :
  ~ In newBookingRef (ids c) ->
  has_conflict a (set_doc (mkDoc newBookingRef (finalBookingData now b)) c) = true <->
  has_conflict a c = true \/
  (requests_collide a b /\ is_Date (bookingTime a) /\ is_Date (request_end a) /\
   is_Date (bookingTime b) /\ is_Date (request_end b)).
Proof.
  intros Hfresh.
  destruct (set_doc_fresh_split (mkDoc newBookingRef (finalBookingData now b)) c
              Hfresh) as (pre & post & -> & -> & _).
  rewrite !has_conflict_app, has_conflict_cons. cbn [doc_data].
  rewrite !orb_true_iff, andb_true_iff, overlaps_final_iff, String.eqb_eq.
  cbn [finalBookingData barberId]. unfold requests_collide.
  split.
  - intros [Hc|[[Hb (Hs & He & Hs' & He' & Hlt & Hgt)]|Hc]].
    + left. left. exact Hc.
    + right. symmetry in Hb.
      exact (conj (conj Hb (conj Hlt Hgt)) (conj Hs (conj He (conj Hs' He')))).
    + left. right. exact Hc.
  - intros [[Hc|Hc]|((Hb & Hlt & Hgt) & Hs & He & Hs' & He')].
    + left. exact Hc.
    + right. right. exact Hc.
    + right. left. symmetry in Hb.
      exact (conj Hb (conj Hs (conj He (conj Hs' (conj He' (conj Hlt Hgt)))))).
Qed.

Lemma requests_collide_sym a b : requests_collide a b -> requests_collide b a.
Proof.
  unfold requests_collide. intros (Hb & Hlt & Hgt).
  split; [symmetry; exact Hb|lia].
Qed.

Lemma has_conflict_after_commit_apart now newBookingRef a b c :
  ~ In newBookingRef (ids c) ->
  ~ requests_collide a b ->
  has_conflict a (set_doc (mkDoc newBookingRef (finalBookingData now b)) c)
  = has_conflict a c.
Proof.
  intros Hfresh Hapart.
  pose proof (has_conflict_after_commit now newBookingRef a b c Hfresh) as Hiff.
  destruct (has_conflict a (set_doc _ c)) eqn:Hafter, (has_conflict a c) eqn:Hbefore;
    try reflexivity.
  - destruct (proj1 Hiff eq_refl) as [Hc|[Hc _]]; [discriminate|contradiction].
  - apply (proj2 Hiff). left. reflexivity.
Qed.

Lemma ids_update_doc {D} (id : string) (f : D -> D) (c c' : Collection D) :
  update_doc id f c = Some c' -> ids c' = ids c.
Proof.
  revert c'. induction c as [|x rest IH]; simpl; intros c' Hup.
  - discriminate.
  - destruct (String.eqb_spec (doc_id x) id) as [Heq|Hne].
    + injection Hup as <-. simpl. rewrite Heq. reflexivity.
    + destruct (update_doc id f rest) as [rest'|]; [|discriminate].
      injection Hup as <-. simpl. rewrite (IH rest' eq_refl). reflexivity.
Qed.

Lemma no_double_booking_single d : no_double_booking [d].
Proof. constructor; constructor. Qed.

(** ** Requests one after the other *)

Lemma createBooking_keeps_no_double_booking_witness :
  no_double_booking
    (bookings (snd (Service.createBooking 7 "b2"
                      (request "u2" "barber1" (clock 10 30) 30)
                      (world_of [stored "b1" "u1" "barber1" (clock 10 0) 30 "pending" 0])))).
Proof.
  apply createBooking_keeps_no_double_booking.
  - apply not_in_ids_single. discriminate.
  - apply no_double_booking_single.
  - unfold is_Date. vm_compute. split; discriminate.
  - intros d [<-|[]] _. unfold is_Date. vm_compute.
    repeat split; discriminate.
Defined.

(** A request submitted a second time, after it was committed, is rejected
    exactly when its duration is positive and its end is a time a Date can
    hold; otherwise the second call is committed as well. *)
Theorem createBooking_same_request_again
  (now1 now2 : Z) (ref1 ref2 : string) (bookingData : Booking) (w : World) :
  ~ In ref1 (ids (bookings w)) ->
  fst (Service.createBooking now1 ref1 bookingData w) = inl ref1 ->
  let again :=
    fst (Service.createBooking now2 ref2 bookingData
           (snd (Service.createBooking now1 ref1 bookingData w))) in
  (again = inr Service.slot_unavailable <->
   0 < duration bookingData /\ is_Date (request_end bookingData)) /\
  (again = inl ref2 <->
   ~ (0 < duration bookingData /\ is_Date (request_end bookingData))).
Proof.
  intros Hfresh Hfirst again.
  apply createBooking_succeeds_iff in Hfirst as [Hfirst Hstart].
  assert (Hagain : has_conflict bookingData
            (bookings (snd (Service.createBooking now1 ref1 bookingData w))) = true
          <-> 0 < duration bookingData /\ is_Date (request_end bookingData)).
  { rewrite createBooking_bookings, Hfirst.
    rewrite (proj2 (start_rejected_storable bookingData) Hstart).
    rewrite has_conflict_after_commit by exact Hfresh.
    unfold requests_collide, request_end. rewrite Hfirst. split.
    - intros [Hc|((_ & Hlt & _) & _ & He & _)]; [discriminate|].
      split; [lia|exact He].
    - intros [Hpos He]. right. split; [split; [reflexivity|lia]|].
      pose proof (storable_is_Date _ Hstart) as Hs.
      exact (conj Hs (conj He (conj Hs He))). }
  subst again. split.
  - rewrite createBooking_rejects_iff. exact Hagain.
  - rewrite createBooking_succeeds_iff, <- Hagain.
    destruct (has_conflict bookingData
                (bookings (snd (Service.createBooking now1 ref1 bookingData w)))).
    + split; [intros [Hx _]; discriminate|intros Hx; exfalso; apply Hx; reflexivity].
    + split; [intros _; discriminate|intros _; split; [reflexivity|exact Hstart]].
Qed.

Lemma createBooking_same_request_again_witness :
  fst (Service.createBooking 2 "b2" (request "u1" "barber1" (clock 10 0) 30)
         (snd (Service.createBooking 1 "b1"
                 (request "u1" "barber1" (clock 10 0) 30) (world_of []))))
  = inr Service.slot_unavailable.
Proof.
  apply (createBooking_same_request_again 1 2 "b1" "b2"
           (request "u1" "barber1" (clock 10 0) 30) (world_of [])).
  - simpl. intros [].
  - reflexivity.
  - split; [reflexivity|unfold is_Date; vm_compute; split; discriminate].
Defined.

(** Of two requests that overlap each other in the eyes of the code, that
    collide with nothing stored, and whose starts a Timestamp can hold, the
    one submitted first is committed and the other is rejected, in either
    order. *)
Theorem createBooking_first_come_first_served
  (now1 now2 : Z) (ref1 ref2 : string) (bookingData1 bookingData2 : Booking)
  (w : World) :
  ~ In ref1 (ids (bookings w)) ->
  ~ In ref2 (ids (bookings w)) ->
  ~ (exists d, In d (bookings w) /\ collides bookingData1 d) ->
  ~ (exists d, In d (bookings w) /\ collides bookingData2 d) ->
  storable (bookingTime bookingData1) ->
  storable (bookingTime bookingData2) ->
  requests_clash bookingData1 bookingData2 ->
  (fst (Service.createBooking now1 ref1 bookingData1 w) = inl ref1 /\
   fst (Service.createBooking now2 ref2 bookingData2
          (snd (Service.createBooking now1 ref1 bookingData1 w)))
   = inr Service.slot_unavailable) /\
  (fst (Service.createBooking now2 ref2 bookingData2 w) = inl ref2 /\
   fst (Service.createBooking now1 ref1 bookingData1
          (snd (Service.createBooking now2 ref2 bookingData2 w)))
   = inr Service.slot_unavailable).
Proof.
  intros Hfresh1 Hfresh2 Hfree1 Hfree2 Hstart1 Hstart2 (Hcollide & Hend1 & Hend2).
  apply has_conflict_false_iff in Hfree1, Hfree2.
  pose proof (proj2 (start_rejected_storable _) Hstart1) as Hok1.
  pose proof (proj2 (start_rejected_storable _) Hstart2) as Hok2.
  split; split.
  - apply createBooking_succeeds_iff. split; assumption.
  - apply createBooking_rejects_iff. rewrite createBooking_bookings, Hfree1, Hok1.
    apply has_conflict_after_commit; [exact Hfresh1|].
    right. split; [apply requests_collide_sym; exact Hcollide|].
    exact (conj (storable_is_Date _ Hstart2)
             (conj Hend2 (conj (storable_is_Date _ Hstart1) Hend1))).
  - apply createBooking_succeeds_iff. split; assumption.
  - apply createBooking_rejects_iff. rewrite createBooking_bookings, Hfree2, Hok2.
    apply has_conflict_after_commit; [exact Hfresh2|].
    right. split; [exact Hcollide|].
    exact (conj (storable_is_Date _ Hstart1)
             (conj Hend1 (conj (storable_is_Date _ Hstart2) Hend2))).
Qed.

Lemma createBooking_first_come_first_served_witness :
  fst (Service.createBooking 2 "b2" (request "u2" "barber1" (clock 10 15) 30)
         (snd (Service.createBooking 1 "b1"
                 (request "u1" "barber1" (clock 10 0) 30) (world_of []))))
  = inr Service.slot_unavailable.
Proof.
  apply (createBooking_first_come_first_served 1 2 "b1" "b2"
           (request "u1" "barber1" (clock 10 0) 30)
           (request "u2" "barber1" (clock 10 15) 30) (world_of [])).
  - simpl. intros [].
  - simpl. intros [].
  - intros (d & [] & _).
  - intros (d & [] & _).
  - unfold storable. vm_compute. split; [discriminate|reflexivity].
  - unfold storable. vm_compute. split; [discriminate|reflexivity].
  - unfold requests_clash, requests_collide, is_Date. vm_compute.
    repeat split; try reflexivity; discriminate.
Defined.

(** Two requests that do not collide with each other do not influence each
    other: each has the outcome it would have alone, whichever is submitted
    first, and both orders leave the same bookings in the collection. *)
Theorem createBooking_order_irrelevant
  (now1 now2 : Z) (ref1 ref2 : string) (bookingData1 bookingData2 : Booking)
  (w : World) :
  ~ In ref1 (ids (bookings w)) ->
  ~ In ref2 (ids (bookings w)) ->
  ref1 <> ref2 ->
  ~ requests_collide bookingData1 bookingData2 ->
  let after1 := snd (Service.createBooking now1 ref1 bookingData1 w) in
  let after2 := snd (Service.createBooking now2 ref2 bookingData2 w) in
  fst (Service.createBooking now2 ref2 bookingData2 after1)
  = fst (Service.createBooking now2 ref2 bookingData2 w) /\
  fst (Service.createBooking now1 ref1 bookingData1 after2)
  = fst (Service.createBooking now1 ref1 bookingData1 w) /\
  Permutation
    (bookings (snd (Service.createBooking now2 ref2 bookingData2 after1)))
    (bookings (snd (Service.createBooking now1 ref1 bookingData1 after2))).
Proof.
  intros Hfresh1 Hfresh2 Hrefs Hapart after1 after2.
  assert (Hapart' : ~ requests_collide bookingData2 bookingData1).
  { intros Hc. apply Hapart, requests_collide_sym, Hc. }
  assert (H21 : has_conflict bookingData2 (bookings after1)
                = has_conflict bookingData2 (bookings w)).
  { subst after1. rewrite createBooking_bookings.
    destruct (has_conflict bookingData1 (bookings w)); [reflexivity|].
    destruct (start_rejected bookingData1); [reflexivity|].
    apply has_conflict_after_commit_apart; assumption. }
  assert (H12 : has_conflict bookingData1 (bookings after2)
                = has_conflict bookingData1 (bookings w)).
  { subst after2. rewrite createBooking_bookings.
    destruct (has_conflict bookingData2 (bookings w)); [reflexivity|].
    destruct (start_rejected bookingData2); [reflexivity|].
    apply has_conflict_after_commit_apart; assumption. }
  split; [|split].
  - rewrite !createBooking_outcome, H21. reflexivity.
  - rewrite !createBooking_outcome, H12. reflexivity.
  - rewrite !createBooking_bookings, H21, H12. subst after1 after2.
    rewrite !createBooking_bookings.
    destruct (has_conflict bookingData1 (bookings w)),
             (has_conflict bookingData2 (bookings w)),
             (start_rejected bookingData1), (start_rejected bookingData2);
      try reflexivity.
    set (d1 := mkDoc ref1 (finalBookingData now1 bookingData1)).
    set (d2 := mkDoc ref2 (finalBookingData now2 bookingData2)).
    assert (Hfresh21 : ~ In (doc_id d2) (ids (set_doc d1 (bookings w)))).
    { rewrite in_ids_set_doc. subst d1 d2. cbn [doc_id].
      intros [Hin|Heq]; [apply Hfresh2, Hin|apply Hrefs; symmetry; exact Heq]. }
    assert (Hfresh12 : ~ In (doc_id d1) (ids (set_doc d2 (bookings w)))).
    { rewrite in_ids_set_doc. subst d1 d2. cbn [doc_id].
      intros [Hin|Heq]; [apply Hfresh1, Hin|apply Hrefs, Heq]. }
    rewrite (set_doc_fresh_perm d2 _ Hfresh21), (set_doc_fresh_perm d1 _ Hfresh12).
    rewrite (set_doc_fresh_perm d1 (bookings w)) by exact Hfresh1.
    rewrite (set_doc_fresh_perm d2 (bookings w)) by exact Hfresh2.
    apply perm_swap.
Qed.

Lemma createBooking_order_irrelevant_witness :
  Permutation
    (bookings (snd (Service.createBooking 2 "b2"
                      (request "u2" "barber1" (clock 10 30) 30)
                      (snd (Service.createBooking 1 "b1"
                              (request "u1" "barber1" (clock 10 0) 30)
                              (world_of [])))))
    )
    (bookings (snd (Service.createBooking 1 "b1"
                      (request "u1" "barber1" (clock 10 0) 30)
                      (snd (Service.createBooking 2 "b2"
                              (request "u2" "barber1" (clock 10 30) 30)
                              (world_of [])))))).
Proof.
  apply (createBooking_order_irrelevant 1 2 "b1" "b2"
           (request "u1" "barber1" (clock 10 0) 30)
           (request "u2" "barber1" (clock 10 30) 30) (world_of [])).
  - simpl. intros [].
  - simpl. intros [].
  - discriminate.
  - unfold requests_collide, request_end. simpl. intros (_ & _ & Hgt).
    vm_compute in Hgt. discriminate Hgt.
Defined.

(** A rejected request stays rejected: no later booking made through
    [createBooking] and no change of status frees the slot. *)
Theorem rejected_request_stays_rejected
  (now : Z) (newBookingRef : string) (bookingData : Booking) (w : World) :
  fst (Service.createBooking now newBookingRef bookingData w)
  = inr Service.slot_unavailable ->
  (forall now' ref' other,
      ~ In ref' (ids (bookings w)) ->
      fst (Service.createBooking now newBookingRef bookingData
             (snd (Service.createBooking now' ref' other w)))
      = inr Service.slot_unavailable) /\
  (forall bookingId newStatus,
      fst (Service.createBooking now newBookingRef bookingData
             (snd (Api.updateBookingStatus bookingId newStatus w)))
      = inr Service.slot_unavailable).
Proof.
  intros Hrej. apply createBooking_rejects_iff in Hrej.
  split.
  - intros now' ref' other Hfresh. apply createBooking_rejects_iff.
    rewrite createBooking_bookings.
    destruct (has_conflict other (bookings w)); [exact Hrej|].
    destruct (start_rejected other); [exact Hrej|].
    apply has_conflict_after_commit; [exact Hfresh|]. left. exact Hrej.
  - intros bookingId newStatus. apply createBooking_rejects_iff.
    rewrite has_conflict_after_update. exact Hrej.
Qed.

Lemma rejected_request_stays_rejected_witness :
  fst (Service.createBooking 9 "b3" (request "u2" "barber1" (clock 10 0) 30)
         (snd (Service.createBooking 5 "b2"
                 (request "u3" "barber1" (clock 12 0) 30)
                 (world_of [stored "b1" "u1" "barber1" (clock 10 0) 30 "pending" 0]))))
  = inr Service.slot_unavailable.
Proof.
  apply (proj1 (rejected_request_stays_rejected 9 "b3"
                  (request "u2" "barber1" (clock 10 0) 30)
                  (world_of [stored "b1" "u1" "barber1" (clock 10 0) 30 "pending" 0])
                  eq_refl)).
  apply not_in_ids_single. discriminate.
Defined.

(** ** A committed booking is listed *)






(** ** Status updates compose *)

Lemma updateBookingStatus_bookings bookingId newStatus w :
  bookings (snd (Api.updateBookingStatus bookingId newStatus w))
  = status_set bookingId newStatus (bookings w).
Proof.
  rewrite updateBookingStatus_run. cbv zeta. unfold status_set.
  destruct (String.eqb bookingId ""); [reflexivity|].
  destruct (update_doc _ _ _); reflexivity.
Qed.

Lemma updateBookingStatus_result bookingId newStatus w :
  fst (Api.updateBookingStatus bookingId newStatus w)
  = if String.eqb bookingId "" then inr (FirestoreError "invalid-argument")
    else match update_doc bookingId (Api.with_status newStatus) (bookings w) with
         | Some _ => inl tt
         | None => inr (FirestoreError "not-found")
         end.
Proof.
  rewrite updateBookingStatus_run. cbv zeta.
  destruct (String.eqb bookingId ""); [reflexivity|].
  destruct (update_doc _ _ _); reflexivity.
Qed.

Lemma update_doc_is_Some {D} (id : string) (f : D -> D) (c : Collection D) :
  (exists c', update_doc id f c = Some c') <-> In id (ids c).
Proof.
  split.
  - intros (c' & Hup). destruct (in_dec string_dec id (ids c)) as [Hin|Hnot];
      [exact Hin|]. rewrite (update_doc_missing _ _ _ Hnot) in Hup. discriminate.
  - intros Hin. destruct (update_doc_found id f c Hin) as (pre & d & post & _ & _ & _ & Hup).
    eexists. exact Hup.
Qed.

Lemma update_doc_after_update bookingId s1 s2 (c c1 : Collection Booking) :
  update_doc bookingId (Api.with_status s1) c = Some c1 ->
  update_doc bookingId (Api.with_status s2) c1
  = update_doc bookingId (Api.with_status s2) c.
Proof.
  revert c1. induction c as [|x rest IH]; simpl; intros c1 Hup.
  - discriminate.
  - destruct (String.eqb (doc_id x) bookingId) eqn:Hx.
    + injection Hup as <-. simpl. rewrite String.eqb_refl. reflexivity.
    + destruct (update_doc bookingId (Api.with_status s1) rest) as [r1|];
        [|discriminate].
      injection Hup as <-. simpl. rewrite Hx, (IH r1 eq_refl). reflexivity.
Qed.

Lemma status_set_twice bookingId s1 s2 c :
  status_set bookingId s2 (status_set bookingId s1 c) = status_set bookingId s2 c.
Proof.
  unfold status_set.
  destruct (String.eqb bookingId ""); [reflexivity|].
  destruct (update_doc bookingId (Api.with_status s1) c) as [c1|] eqn:H1.
  - rewrite (update_doc_after_update _ _ _ _ _ H1).
    assert (Hin : In bookingId (ids c)).
    { apply (update_doc_is_Some bookingId (Api.with_status s1)). eexists. exact H1. }
    destruct (proj2 (update_doc_is_Some bookingId (Api.with_status s2) c) Hin)
      as (c2 & ->).
    reflexivity.
  - reflexivity.
Qed.

Lemma ids_status_set bookingId newStatus c :
  ids (status_set bookingId newStatus c) = ids c.
Proof.
  unfold status_set.
  destruct (String.eqb bookingId ""); [reflexivity|].
  destruct (update_doc _ _ c) as [c'|] eqn:Hup; [|reflexivity].
  apply (ids_update_doc _ _ _ _ Hup).
Qed.

Lemma updateBookingStatus_result_after a b sa sb w :
  fst (Api.updateBookingStatus b sb (snd (Api.updateBookingStatus a sa w)))
  = fst (Api.updateBookingStatus b sb w).
Proof.
  rewrite !updateBookingStatus_result, updateBookingStatus_bookings.
  destruct (String.eqb b ""); [reflexivity|].
  destruct (in_dec string_dec b (ids (bookings w))) as [Hin|Hnot].
  - destruct (proj2 (update_doc_is_Some b (Api.with_status sb) (bookings w)) Hin)
      as (c2 & ->).
    assert (Hin' : In b (ids (status_set a sa (bookings w)))).
    { rewrite ids_status_set. exact Hin. }
    destruct (proj2 (update_doc_is_Some b (Api.with_status sb) _) Hin')
      as (c12 & ->).
    reflexivity.
  - rewrite (update_doc_missing _ _ _ Hnot).
    rewrite update_doc_missing; [reflexivity|].
    rewrite ids_status_set. exact Hnot.
Qed.

(** The last status written wins: an update of a booking makes any earlier
    update of the same booking unobservable, in what the later call returns
    and in the bookings it leaves; repeating an update changes nothing. *)
Theorem updateBookingStatus_last_write_wins
  (bookingId status1 status2 : string) (w : World) :
  let once := Api.updateBookingStatus bookingId status2 w in
  let twice :=
    Api.updateBookingStatus bookingId status2
      (snd (Api.updateBookingStatus bookingId status1 w)) in
  fst twice = fst once /\
  bookings (snd twice) = bookings (snd once) /\
  bookings (snd (Api.updateBookingStatus bookingId status2 (snd once)))
  = bookings (snd once).
Proof.
  intros once twice. subst once twice. split; [|split].
  - apply updateBookingStatus_result_after.
  - rewrite !updateBookingStatus_bookings. apply status_set_twice.
  - rewrite !updateBookingStatus_bookings. apply status_set_twice.
Qed.

Lemma status_set_empty newStatus c : status_set "" newStatus c = c.
Proof. reflexivity. Qed.

Lemma status_set_cons bookingId newStatus x rest :
  bookingId <> "" ->
  status_set bookingId newStatus (x :: rest)
  = if String.eqb (doc_id x) bookingId
    then mkDoc bookingId (Api.with_status newStatus (doc_data x)) :: rest
    else x :: status_set bookingId newStatus rest.
Proof.
  intros Hname. apply String.eqb_neq in Hname.
  unfold status_set. rewrite Hname. simpl.
  destruct (String.eqb (doc_id x) bookingId); [reflexivity|].
  destruct (update_doc _ _ rest); reflexivity.
Qed.

Lemma status_set_commute id1 id2 s1 s2 c :
  id1 <> id2 ->
  status_set id2 s2 (status_set id1 s1 c) = status_set id1 s1 (status_set id2 s2 c).
Proof.
  intros Hne.
  destruct (string_dec id1 "") as [->|Hn1]; [rewrite !status_set_empty; reflexivity|].
  destruct (string_dec id2 "") as [->|Hn2]; [rewrite !status_set_empty; reflexivity|].
  induction c as [|x rest IH].
  - unfold status_set. simpl.
    destruct (String.eqb id1 ""), (String.eqb id2 ""); reflexivity.
  - rewrite (status_set_cons id1), (status_set_cons id2) by assumption.
    destruct (String.eqb_spec (doc_id x) id1) as [H1|H1],
             (String.eqb_spec (doc_id x) id2) as [H2|H2].
    + congruence.
    + rewrite status_set_cons, (status_set_cons id1) by assumption. cbn [doc_id].
      apply String.eqb_neq in Hne. rewrite Hne.
      apply String.eqb_eq in H1. rewrite H1. reflexivity.
    + rewrite status_set_cons, (status_set_cons id1) by assumption. cbn [doc_id].
      assert (Hne' : id2 <> id1) by congruence.
      apply String.eqb_neq in Hne'. rewrite Hne'.
      apply String.eqb_eq in H2. rewrite H2. reflexivity.
    + rewrite status_set_cons, (status_set_cons id1 s1 x) by assumption.
      apply String.eqb_neq in H1, H2. rewrite H1, H2, IH. reflexivity.
Qed.

(** Updates of two different bookings do not interfere: in either order each
    call returns what it returns alone, and the bookings left are the
    same. *)
Theorem updateBookingStatus_commutes
  (id1 id2 status1 status2 : string) (w : World) :
  id1 <> id2 ->
  fst (Api.updateBookingStatus id2 status2
         (snd (Api.updateBookingStatus id1 status1 w)))
  = fst (Api.updateBookingStatus id2 status2 w) /\
  fst (Api.updateBookingStatus id1 status1
         (snd (Api.updateBookingStatus id2 status2 w)))
  = fst (Api.updateBookingStatus id1 status1 w) /\
  bookings (snd (Api.updateBookingStatus id2 status2
                   (snd (Api.updateBookingStatus id1 status1 w))))
  = bookings (snd (Api.updateBookingStatus id1 status1
                     (snd (Api.updateBookingStatus id2 status2 w)))).
Proof.
  intros Hne.
  split; [apply updateBookingStatus_result_after
         |split; [apply updateBookingStatus_result_after|]].
  rewrite !updateBookingStatus_bookings. apply status_set_commute. exact Hne.
Qed.

Lemma updateBookingStatus_commutes_witness :
  bookings (snd (Api.updateBookingStatus "b2" "confirmed"
                   (snd (Api.updateBookingStatus "b1" "cancelled"
                           (world_of [stored "b1" "u1" "barber1" (clock 10 0) 30 "pending" 0;
                                      stored "b2" "u2" "barber1" (clock 11 0) 30 "pending" 1])))))
  = bookings (snd (Api.updateBookingStatus "b1" "cancelled"
                     (snd (Api.updateBookingStatus "b2" "confirmed"
                             (world_of [stored "b1" "u1" "barber1" (clock 10 0) 30 "pending" 0;
                                        stored "b2" "u2" "barber1" (clock 11 0) 30 "pending" 1]))))).
Proof.
  apply (updateBookingStatus_commutes "b1" "b2" "cancelled" "confirmed").
  discriminate.
Defined.

(** ** Status updates and the invariant *)

Lemma apart_slot a b a' b' :
  slot a = slot a' -> slot b = slot b' -> apart a b -> apart a' b'.
Proof.
  unfold slot, apart. intros Ha Hb Hab.
  injection Ha as Hba Hsa Hea. injection Hb as Hbb Hsb Heb.
  rewrite <- Hba, <- Hbb, <- Hsa, <- Hea, <- Hsb, <- Heb. exact Hab.
Qed.

Lemma cons_eq_inv {A} (a b : A) (l l' : list A) :
  a :: l = b :: l' -> a = b /\ l = l'.
Proof. intros Heq. injection Heq as Ha Hl. split; assumption. Qed.

Lemma Forall_apart_slots x x' l l' :
  slot x = slot x' -> map slot l = map slot l' ->
  Forall (apart x) l -> Forall (apart x') l'.
Proof.
  intros Hx. revert l'.
  induction l as [|y rest IH]; intros [|y' rest'] Hmap Hall; try discriminate.
  - constructor.
  - cbn [map] in Hmap. apply cons_eq_inv in Hmap as [Hy Hrest].
    inversion Hall as [|? ? Hxy Hall']; subst. constructor.
    + apply (apart_slot x y); assumption.
    + apply IH; assumption.
Qed.

Lemma no_double_booking_slots c c' :
  map slot c = map slot c' -> no_double_booking c -> no_double_booking c'.
Proof.
  unfold no_double_booking. revert c'.
  induction c as [|x rest IH]; intros [|x' rest'] Hmap Hinv; try discriminate.
  - constructor.
  - cbn [map] in Hmap. apply cons_eq_inv in Hmap as [Hx Hrest].
    inversion Hinv as [|? ? Hall Hrec]; subst. constructor.
    + apply (Forall_apart_slots x x' rest rest'); assumption.
    + apply IH; assumption.
Qed.

Lemma slots_status_set bookingId newStatus c :
  map slot (status_set bookingId newStatus c) = map slot c.
Proof.
  destruct (string_dec bookingId "") as [->|Hname]; [reflexivity|].
  induction c as [|x rest IH].
  - unfold status_set. destruct (String.eqb bookingId ""); reflexivity.
  - rewrite status_set_cons by exact Hname.
    destruct (String.eqb (doc_id x) bookingId); simpl.
    + reflexivity.
    + rewrite IH. reflexivity.
Qed.

(** A status update touches neither the names, nor the order, nor the
    intervals of the bookings: the collection has a double booking after the
    update exactly when it had one before. *)
Theorem updateBookingStatus_keeps_slots
  (bookingId newStatus : string) (w : World) :
  let after := bookings (snd (Api.updateBookingStatus bookingId newStatus w)) in
  ids after = ids (bookings w) /\
  map slot after = map slot (bookings w) /\
  (no_double_booking after <-> no_double_booking (bookings w)).
Proof.
  intros after. subst after. rewrite updateBookingStatus_bookings.
  split; [apply ids_status_set|split; [apply slots_status_set|]].
  split; apply no_double_booking_slots.
  - apply slots_status_set.
  - symmetry. apply slots_status_set.
Qed.

(** ** Reviews *)



(** ** Saloons by name *)

Lemma find_by_id_found {D} (id : string) (c : Collection D) :
  In id (ids c) ->
  exists found, find (fun d => String.eqb (doc_id d) id) c = Some found /\
                In found c /\ doc_id found = id.
Proof.
  induction c as [|x rest IH]; simpl; intros Hin.
  - contradiction.
  - destruct (String.eqb_spec (doc_id x) id) as [Heq|Hne].
    + exists x. auto.
    + destruct Hin as [Hx|Hin]; [contradiction|].
      destruct (IH Hin) as (found & Hfind & Hfound & Hid).
      exists found. auto.
Qed.

Lemma find_by_id_missing {D} (id : string) (c : Collection D) :
  ~ In id (ids c) -> find (fun d => String.eqb (doc_id d) id) c = None.
Proof.
  induction c as [|x rest IH]; simpl; intros Hnot.
  - reflexivity.
  - destruct (String.eqb_spec (doc_id x) id) as [Heq|Hne].
    + exfalso. apply Hnot. left. exact Heq.
    + apply IH. intros Hin. apply Hnot. right. exact Hin.
Qed.

Lemma find_by_id_unique {D} (d : Doc D) (c : Collection D) :
  NoDup (ids c) -> In d c ->
  find (fun x => String.eqb (doc_id x) (doc_id d)) c = Some d.
Proof.
  induction c as [|x rest IH]; simpl; intros Hnodup Hin.
  - contradiction.
  - inversion Hnodup as [|? ? Hx Hrest]; subst.
    destruct Hin as [->|Hin].
    + rewrite String.eqb_refl. reflexivity.
    + destruct (String.eqb_spec (doc_id x) (doc_id d)) as [Heq|Hne].
      * exfalso. apply Hx. rewrite Heq. apply in_map. exact Hin.
      * apply IH; assumption.
Qed.

Lemma getDoc_run {D} (id : string) (c : Collection D) :
  getDoc id c
  = if String.eqb id "" then (inr (FirestoreError "invalid-argument"), c)
    else (inl (find (fun d => String.eqb (doc_id d) id) c), c).
Proof.
  unfold getDoc, doc_ref, bind, gets.
  destruct (String.eqb id ""); reflexivity.
Qed.

Section SaloonFacts.
Context {number : Type} `{JsNumber number}.
Variable geohashQueryBounds : number * number -> number -> list (string * string).
Variable distanceBetween : number * number -> number * number -> number.

Lemma transformDoc_saloon (d : Doc (Saloon number)) :
  transformDoc d
  = mkDoc (match saloon_id_field (doc_data d) with
           | Some id => id
           | None => doc_id d
           end) (doc_data d).
Proof. reflexivity. Qed.

Lemma service_getSaloonById_run (saloonId : string) (c : Collection (Saloon number)) :
  ServiceRest.getSaloonById saloonId c
  = if String.eqb saloonId "" then (inr (FirestoreError "invalid-argument"), c)
    else match find (fun d => String.eqb (doc_id d) saloonId) c with
         | Some found => (inl (transformDoc found), c)
         | None => (inr (JsError "Saloon not found"), c)
         end.
Proof.
  unfold ServiceRest.getSaloonById, bind. rewrite getDoc_run.
  destruct (String.eqb saloonId ""); [reflexivity|].
  destruct (find _ c); reflexivity.
Qed.

(** [getSaloonById] of the booking service, asked for a name that can name a
    document, resolves exactly when a saloon of that name exists, to the
    fields of that saloon under the [id] they carry, or under the name asked
    for when they carry none; otherwise it rejects with the error "Saloon not
    found", where the version of api.js resolves to a snapshot that does not
    exist.  Asked for the empty name both reject as the SDK does.  Neither
    changes the collection. *)
Theorem getSaloonById_found_or_not
  (saloonId : string) (c : Collection (Saloon number)) :
  snd (ServiceRest.getSaloonById saloonId c) = c /\
  snd (ApiRest.getSaloonById saloonId c) = c /\
  (plain_name saloonId = true ->
   In saloonId (ids c) ->
   exists found,
     In found c /\ doc_id found = saloonId /\
     fst (ApiRest.getSaloonById saloonId c) = inl (Some found) /\
     fst (ServiceRest.getSaloonById saloonId c)
     = inl (mkDoc (match saloon_id_field (doc_data found) with
                   | Some id => id
                   | None => saloonId
                   end) (doc_data found))) /\
  (plain_name saloonId = true ->
   ~ In saloonId (ids c) ->
   fst (ApiRest.getSaloonById saloonId c) = inl None /\
   fst (ServiceRest.getSaloonById saloonId c) = inr (JsError "Saloon not found")) /\
  (saloonId = "" ->
   fst (ApiRest.getSaloonById saloonId c) = inr (FirestoreError "invalid-argument") /\
   fst (ServiceRest.getSaloonById saloonId c)
   = inr (FirestoreError "invalid-argument")).
Proof.
  unfold ApiRest.getSaloonById. rewrite service_getSaloonById_run, getDoc_run.
  split; [|split; [|split; [|split]]].
  - destruct (String.eqb saloonId ""); [reflexivity|].
    destruct (find _ c); reflexivity.
  - destruct (String.eqb saloonId ""); reflexivity.
  - intros Hplain Hin. apply plain_name_nonempty, String.eqb_neq in Hplain.
    rewrite Hplain.
    destruct (find_by_id_found saloonId c Hin) as (found & Hfind & Hfound & Hid).
    exists found. rewrite Hfind, transformDoc_saloon, Hid. cbn [fst]. auto.
  - intros Hplain Hnot. apply plain_name_nonempty, String.eqb_neq in Hplain.
    rewrite Hplain, (find_by_id_missing saloonId c Hnot). cbn [fst]. auto.
  - intros ->. cbn [String.eqb fst]. auto.
Qed.

Lemma getNearbySaloons_result center radiusInM (w : SaloonWorld number) :
  getNearbySaloons geohashQueryBounds distanceBetween center radiusInM w
  = (inl (map transformDoc
            (filter (fun doc => num_leb (distanceInM distanceBetween center doc)
                                        radiusInM)
               (List.concat
                  (map (fun b => filter (in_range (fst b) (snd b)) (saloons w))
                       (geohashQueryBounds center radiusInM))))),
     mkSaloonWorld (saloons w)
       (saloon_trace w
        ++ map (fun b => GetDocsRange "saloons" "geohash" (fst b) (snd b))
               (geohashQueryBounds center radiusInM))).
Proof.
  unfold getNearbySaloons, bind. rewrite all_getDocs_geohash.
  rewrite push_matching_all. reflexivity.
Qed.

(** The proximity search only reads: it sends one range query per bound of
    [geohashQueryBounds], in their order, leaves the saloons as they were,
    and returns no more than one object per bound and stored saloon; with no
    bound it returns nothing. *)
Theorem getNearbySaloons_only_reads
  (center : number * number) (radiusInM : number) (w : SaloonWorld number) :
  let bounds := geohashQueryBounds center radiusInM in
  let run := getNearbySaloons geohashQueryBounds distanceBetween center radiusInM w in
  saloons (snd run) = saloons w /\
  saloon_trace (snd run)
  = saloon_trace w
    ++ map (fun b => GetDocsRange "saloons" "geohash" (fst b) (snd b)) bounds /\
  (exists matchingDocs,
      fst run = inl matchingDocs /\
      (List.length matchingDocs
       <= List.length bounds * List.length (saloons w))%nat /\
      (bounds = [] -> matchingDocs = [])).
Proof.
  intros bounds run. subst run. rewrite getNearbySaloons_result. cbn [fst snd saloons saloon_trace].
  split; [reflexivity|split; [reflexivity|]].
  eexists. split; [reflexivity|split].
  - rewrite length_map. etransitivity; [apply filter_length_le|].
    fold bounds. induction bounds as [|b rest IH]; simpl.
    + apply le_n.
    + rewrite length_app. apply Nat.add_le_mono; [apply filter_length_le|exact IH].
  - fold bounds. intros ->. reflexivity.
Qed.

(** Every saloon the proximity search returns comes from a document that
    [getAllSaloons] returns, and, document names being unique and not empty,
    asking [getSaloonById] for the name of that document gives the same
    object back; the [id] of the object is that name when the document
    stores no [id] field of its own. *)
Theorem nearby_saloon_is_found_by_id
  (center : number * number) (radiusInM : number) (w : SaloonWorld number) :
  NoDup (ids (saloons w)) ->
  ~ In "" (ids (saloons w)) ->
  forall matchingDocs,
    fst (getNearbySaloons geohashQueryBounds distanceBetween center radiusInM w)
    = inl matchingDocs ->
    forall saloon,
      In saloon matchingDocs ->
      exists doc,
        (exists all, fst (ApiRest.getAllSaloons (saloons w)) = inl all /\ In doc all) /\
        doc_data saloon = doc_data doc /\
        fst (ServiceRest.getSaloonById (doc_id doc) (saloons w)) = inl saloon /\
        (saloon_id_field (doc_data doc) = None -> doc_id saloon = doc_id doc).
Proof.
  intros Hnodup Hnames matchingDocs Hrun saloon Hin.
  rewrite getNearbySaloons_result in Hrun. cbn [fst] in Hrun.
  injection Hrun as <-.
  apply in_map_iff in Hin as (doc & <- & Hin).
  apply filter_In in Hin as [Hin _].
  apply in_concat in Hin as (snap & Hsnap & Hdoc).
  apply in_map_iff in Hsnap as (b & <- & _).
  apply filter_In in Hdoc as [Hdoc _].
  exists doc. split; [|split; [|split]].
  - exists (saloons w). split; [reflexivity|exact Hdoc].
  - reflexivity.
  - rewrite service_getSaloonById_run.
    assert (Hname : doc_id doc <> "").
    { intros Heq. apply Hnames. rewrite <- Heq. apply in_map. exact Hdoc. }
    apply String.eqb_neq in Hname. rewrite Hname.
    rewrite (find_by_id_unique doc (saloons w) Hnodup Hdoc). reflexivity.
  - intros Hnone. rewrite transformDoc_saloon, Hnone. reflexivity.
Qed.

End SaloonFacts.

Lemma getSaloonById_found_or_not_witness :
  fst (ServiceRest.getSaloonById "s2" sample_saloons)
  = inl (mkDoc "s2" (mkSaloon "Far" "tdr9" (30, 40) None)) /\
  fst (ServiceRest.getSaloonById "s9" sample_saloons)
  = inr (JsError "Saloon not found").
Proof.
  split.
  - destruct (proj1 (proj2 (proj2 (getSaloonById_found_or_not "s2" sample_saloons))))
      as (found & Hin & Hid & _ & Hrun).
    + reflexivity.
    + simpl. right. left. reflexivity.
    + rewrite Hrun. simpl in Hin. destruct Hin as [<-|[<-|[]]].
      * discriminate Hid.
      * reflexivity.
  - apply (proj1 (proj2 (proj2 (proj2 (getSaloonById_found_or_not "s9" sample_saloons))))).
    + reflexivity.
    + simpl. intros [Heq|[Heq|[]]]; discriminate Heq.
Defined.

Lemma nearby_saloon_is_found_by_id_witness :
  exists doc,
    doc_data doc = mkSaloon "Near" "tdr1" (3, 4) None /\
    fst (ServiceRest.getSaloonById (doc_id doc) sample_saloons)
    = inl (mkDoc "s1" (mkSaloon "Near" "tdr1" (3, 4) None)).
Proof.
  assert (Hnodup : NoDup (ids (saloons (mkSaloonWorld sample_saloons [])))).
  { simpl. repeat constructor; simpl; intuition discriminate. }
  assert (Hnames : ~ In "" (ids (saloons (mkSaloonWorld sample_saloons [])))).
  { simpl. intuition discriminate. }
  destruct (nearby_saloon_is_found_by_id one_bound grid_distance (0, 0) 10000
              (mkSaloonWorld sample_saloons []) Hnodup Hnames
              [mkDoc "s1" (mkSaloon "Near" "tdr1" (3, 4) None)])
    with (saloon := mkDoc "s1" (mkSaloon "Near" "tdr1" (3, 4) None))
    as (doc & _ & Hdata & Hfound & _).
  - vm_compute. reflexivity.
  - left. reflexivity.
  - exists doc. split; [symmetry; exact Hdata|exact Hfound].
Defined.

(** ** What the upload prints *)

(** Every call of [uploadImageToCloudinary] sends one request and prints one
    line: the success line with the URL it returns, or an error line, and it
    returns [null] exactly when the line is an error line. *)
Theorem uploadImageToCloudinary_logs_once
  (config : Cloudinary.Config) (fileUri : string) (net : Cloudinary.Net) :
  let run := Cloudinary.uploadImageToCloudinary config fileUri net in
  exists value line,
    fst run = inl value /\
    Cloudinary.console (snd run) = Cloudinary.console net ++ [line] /\
    Cloudinary.sent (snd run) = Cloudinary.sent net ++ [upload_request config fileUri] /\
    (line = Cloudinary.ConsoleLog "Image uploaded successfully:" value
     \/ exists message, line = Cloudinary.ConsoleError message) /\
    (value = Cloudinary.JNull <-> exists message, line = Cloudinary.ConsoleError message).
Proof.
  intros run. subst run. rewrite uploadImageToCloudinary_run. cbv zeta.
  assert (Hfailed : forall message,
    exists value line,
      fst (@inl Cloudinary.json error Cloudinary.JNull,
           Cloudinary.mkNet (Cloudinary.respond net)
             (Cloudinary.sent net ++ [upload_request config fileUri])
             (Cloudinary.console net ++ [Cloudinary.ConsoleError message]))
      = inl value /\
      Cloudinary.console
        (snd (@inl Cloudinary.json error Cloudinary.JNull,
              Cloudinary.mkNet (Cloudinary.respond net)
                (Cloudinary.sent net ++ [upload_request config fileUri])
                (Cloudinary.console net ++ [Cloudinary.ConsoleError message])))
      = Cloudinary.console net ++ [line] /\
      Cloudinary.sent
        (snd (@inl Cloudinary.json error Cloudinary.JNull,
              Cloudinary.mkNet (Cloudinary.respond net)
                (Cloudinary.sent net ++ [upload_request config fileUri])
                (Cloudinary.console net ++ [Cloudinary.ConsoleError message])))
      = Cloudinary.sent net ++ [upload_request config fileUri] /\
      (line = Cloudinary.ConsoleLog "Image uploaded successfully:" value
       \/ exists message, line = Cloudinary.ConsoleError message) /\
      (value = Cloudinary.JNull <-> exists message, line = Cloudinary.ConsoleError message)).
  { intros message. exists Cloudinary.JNull, (Cloudinary.ConsoleError message).
    cbn [fst snd Cloudinary.console Cloudinary.sent].
    repeat split; try reflexivity.
    - right. exists message. reflexivity.
    - intros _. exists message. reflexivity. }
  destruct (Cloudinary.respond net (upload_request config fileUri))
    as [message|[data|]]; try apply Hfailed.
  destruct data as [|b|n|s|items|properties]; try apply Hfailed.
  destruct (Cloudinary.assoc "secure_url" properties) as [url|]; [|apply Hfailed].
  destruct (Cloudinary.truthy (Some url)) eqn:Htruthy; [|apply Hfailed].
  exists url, (Cloudinary.ConsoleLog "Image uploaded successfully:" url).
  cbn [fst snd Cloudinary.console Cloudinary.sent].
  split; [reflexivity|split; [reflexivity|split; [reflexivity|split]]].
  - left. reflexivity.
  - split.
    + intros ->. discriminate Htruthy.
    + intros (message & Hline). discriminate Hline.
Qed.

(** ** From the request to the status shown *)





(** ** A start no Timestamp can hold *)

(** A request whose start a Date can hold and a Timestamp cannot (before the
    year 1 or after the year 9999) is never committed: after the read of the
    barber's bookings it fails, as unavailable when a stored booking
    collides with it and otherwise with the SDK's invalid-argument error; the
    failure is printed, and the collection is left as it was. *)
Theorem createBooking_start_out_of_range
  (now : Z) (newBookingRef : string) (bookingData : Booking) (w : World) :
  is_Date (bookingTime bookingData) ->
  ~ storable (bookingTime bookingData) ->
  let run := Service.createBooking now newBookingRef bookingData w in
  ((exists d, In d (bookings w) /\ collides bookingData d) ->
   fst run = inr Service.slot_unavailable) /\
  (~ (exists d, In d (bookings w) /\ collides bookingData d) ->
   fst run = inr (FirestoreError "invalid-argument")) /\
  bookings (snd run) = bookings w /\
  exists e,
    fst run = inr e /\
    trace (snd run)
    = trace w ++ [GetDocs "bookings" "barberId" (barberId bookingData);
                  Console_error "Booking Transaction Failed:" e].
Proof.
  intros Hdate Hrange run. subst run.
  rewrite createBooking_run. cbv zeta.
  rewrite (start_rejected_out_of_range _ Hdate Hrange).
  destruct (has_conflict bookingData (bookings w)) eqn:Hc; cbn [fst snd bookings trace].
  - split; [reflexivity|split; [|split; [reflexivity|]]].
    + intros Hnone. apply has_conflict_false_iff in Hnone. congruence.
    + eexists. split; reflexivity.
  - split; [|split; [reflexivity|split; [reflexivity|]]].
    + intros Hsome. apply has_conflict_iff in Hsome. congruence.
    + eexists. split; reflexivity.
Qed.

Lemma createBooking_start_out_of_range_witness :
  fst (Service.createBooking 7 "b1"
         (request "u1" "barber1" (-100000000000000) 30) (world_of []))
  = inr (FirestoreError "invalid-argument").
Proof.
  pose proof (createBooking_start_out_of_range 7 "b1"
                (request "u1" "barber1" (-100000000000000) 30) (world_of []))
    as Hrun.
  destruct Hrun as (_ & Hnone & _).
  - unfold is_Date. vm_compute. split; discriminate.
  - unfold storable. vm_compute. intros [Hlow _]. apply Hlow. reflexivity.
  - apply Hnone. intros (d & [] & _).
Defined.
